(** * ana-bot: the indicator and decision engine of [src/index.js]

    A shallow embedding of [TechnicalIndicators], [SMCAnalysis],
    [PriceFetcher.fetchHistoricalData], [DecisionEngine] and of the two
    consumers of its results (the [/signals] aggregation and the alert scan
    of [periodicAnalysis]), followed by the properties of the design
    document that were checked against them.

    JavaScript numbers are IEEE 754 binary64 values.  The code is embedded
    once, over an interface [JsNumber] of the operations it uses, and read
    at two instances:
    - [binary64]: Rocq's primitive floats, which are binary64 with
      round-to-nearest-even, i.e. the arithmetic the program runs on;
    - [rational]: canonical rationals [Qc], the arithmetic the design
      document reasons in (no rounding, no overflow, no NaN).
    Properties that only depend on the shape of the code are proved for
    every instance; properties of the arithmetic are proved for
    [rational] and evaluated on [binary64]. *)

From Stdlib Require Import String Ascii.
From Stdlib Require Import ZArith QArith Qcanon Lqa.
From Stdlib Require Import Floats.
From Stdlib Require Import List Arith Bool Lia Sorted Permutation.
Import ListNotations.
Close Scope Qc_scope.
Close Scope Q_scope.
Close Scope Z_scope.
Open Scope nat_scope.

Set Implicit Arguments.
Set Warnings "-abstract-large-number".

(** ** Numbers *)

(** The operations on numbers that the program uses.  [nltb x y] is
    [x < y], [nleb x y] is [x <= y], [neqb x y] is [x === y]; the
    program's [x > y] and [x >= y] are [nltb y x] and [nleb y x].
    [truthy] is ToBoolean (false on zero and NaN), [of_nat] reads an
    integer literal or a count such as [period], [pow2 x] is
    [Math.pow(x, 2)], and [undef] is what arithmetic sees when an array is
    read out of range. *)
Class JsNumber (num : Type) : Type := {
  nadd : num -> num -> num;
  nsub : num -> num -> num;
  nmul : num -> num -> num;
  ndiv : num -> num -> num;
  nsqrt : num -> num;
  pow2 : num -> num;
  nltb : num -> num -> bool;
  nleb : num -> num -> bool;
  neqb : num -> num -> bool;
  of_nat : nat -> num;
  truthy : num -> bool;
  undef : num
}.

Declare Scope js_scope.
Delimit Scope js_scope with js.
Notation "x + y" := (nadd x y) : js_scope.
Notation "x - y" := (nsub x y) : js_scope.
Notation "x * y" := (nmul x y) : js_scope.
Notation "x / y" := (ndiv x y) : js_scope.
Notation "x <? y" := (nltb x y) : js_scope.
Notation "x <=? y" := (nleb x y) : js_scope.
Notation "x >? y" := (nltb y x) : js_scope.
Notation "x >=? y" := (nleb y x) : js_scope.
Notation "x === y" := (neqb x y) (at level 70, no associativity) : js_scope.
Notation "$ n" := (of_nat n) (at level 1, format "$ n") : js_scope.

(** [for (let i = lo; i < hi; i++) s = body i s]. *)
Fixpoint iterate_from {St : Type} (i count : nat) (body : nat -> St -> St) (s : St) : St :=
  match count with
  | O => s
  | S count' => iterate_from (S i) count' body (body i s)
  end.

Definition for_loop {St : Type} (lo hi : nat) (body : nat -> St -> St) (s : St) : St :=
  iterate_from lo (hi - lo) body s.

(** [haystack.includes(needle)]. *)
Fixpoint includes (needle haystack : string) : bool :=
  if String.prefix needle haystack then true
  else match haystack with
       | EmptyString => false
       | String _ rest => includes needle rest
       end.

(** ** TechnicalIndicators *)

(** The object returned by [calculateMACD]; [signal] and [histogram] are
    always [null]. *)
Record MACD (num : Type) : Type := {
  macd_line : num;
  macd_signal : option num;
  macd_histogram : option num
}.

(** The object returned by [calculateBollingerBands]. *)
Record Bands (num : Type) : Type := {
  upper : num;
  middle : option num;
  lower : num
}.

Section Indicators.
Context {num : Type} `{JsNumber num}.
Local Open Scope js_scope.

(** [prices[i]]; a read out of range, [undefined] in the program, is the
    [undef] of the number instance (NaN on binary64). *)
Definition get (prices : list num) (i : nat) : num := nth i prices undef.

(** A value that may be [null], used in arithmetic ([null] counts as 0). *)
Definition toNumber (v : option num) : num :=
  match v with
  | Some x => x
  | None => $0
  end.

(** [prices.slice(-period)]: the last [period] elements, and the whole
    array when [period] is 0. *)
Definition slice_last (prices : list num) (period : nat) : list num :=
  if (period =? 0)%nat then prices
  else skipn (length prices - period) prices.

Definition calculateMA (prices : list num) (period : nat) : option num :=
  if (length prices <? period)%nat then None
  else
    let sum := fold_left (fun acc price => acc + price) (slice_last prices period) $0 in
    Some (sum / $period).

Definition calculateEMA (prices : list num) (period : nat) : option num :=
  if (length prices <? period)%nat then None
  else
    let k := $2 / ($period + $1) in
    Some (for_loop 1 (length prices)
            (fun i ema => get prices i * k + ema * ($1 - k))
            (get prices 0)).

(** The loop of [calculateRSI]; the state is [(gains, losses)]. *)
Definition rsi_step (prices : list num) (i : nat) (gl : num * num) : num * num :=
  let '(gains, losses) := gl in
  let change := get prices i - get prices (i - 1) in
  if change >=? $0 then (gains + change, losses)
  else (gains, losses - change).

Definition calculateRSI (prices : list num) (period : nat) : option num :=
  if (length prices <? period + 1)%nat then None
  else
    let '(gains, losses) := for_loop 1 (period + 1) (rsi_step prices) ($0, $0) in
    let avgGain := gains / $period in
    let avgLoss := losses / $period in
    if avgLoss === $0 then Some $100
    else
      let rs := avgGain / avgLoss in
      Some ($100 - $100 / ($1 + rs)).

Definition calculateMACD (prices : list num) (fast slow signal : nat) : option (MACD num) :=
  if (length prices <? slow)%nat then None
  else
    let fastEMA := calculateEMA prices fast in
    let slowEMA := calculateEMA prices slow in
    let macdLine := toNumber fastEMA - toNumber slowEMA in
    Some {| macd_line := macdLine; macd_signal := None; macd_histogram := None |}.

Definition calculateBollingerBands (prices : list num) (period : nat) (stdDev : num)
  : option (Bands num) :=
  if (length prices <? period)%nat then None
  else
    let ma := calculateMA prices period in
    let sumSquaredDiffs :=
      for_loop (length prices - period) (length prices)
        (fun i acc => acc + pow2 (get prices i - toNumber ma)) $0 in
    let std := nsqrt (sumSquaredDiffs / $period) in
    let upperBand := toNumber ma + stdDev * std in
    let lowerBand := toNumber ma - stdDev * std in
    Some {| upper := upperBand; middle := ma; lower := lowerBand |}.

End Indicators.

(** ** SMCAnalysis *)

Inductive SwingType : Type := high | low.

Record Swing (num : Type) : Type := {
  swing_type : SwingType;
  swing_index : nat;
  swing_price : num
}.

Section Swings.
Context {num : Type} `{JsNumber num}.
Local Open Scope js_scope.

(** The inner loop of [findSwings]; the state is [(isHigh, isLow)]. *)
Definition window_step (prices : list num) (i : nat) (currentPrice : num)
    (j : nat) (flags : bool * bool) : bool * bool :=
  let '(isHigh, isLow) := flags in
  if (j =? i)%nat then (isHigh, isLow)
  else
    let isHigh := if get prices j >=? currentPrice then false else isHigh in
    let isLow := if get prices j <=? currentPrice then false else isLow in
    (isHigh, isLow).

Definition window_flags (prices : list num) (windowSize i : nat) : bool * bool :=
  for_loop (i - windowSize) (i + windowSize + 1)
    (window_step prices i (get prices i)) (true, true).

Definition swing_step (prices : list num) (windowSize i : nat)
    (swings : list (Swing num)) : list (Swing num) :=
  let currentPrice := get prices i in
  let '(isHigh, isLow) := window_flags prices windowSize i in
  if isHigh then
    swings ++ [{| swing_type := high; swing_index := i; swing_price := currentPrice |}]
  else if isLow then
    swings ++ [{| swing_type := low; swing_index := i; swing_price := currentPrice |}]
  else swings.

Definition findSwings (prices : list num) (windowSize : nat) : list (Swing num) :=
  for_loop windowSize (length prices - windowSize) (swing_step prices windowSize) [].

End Swings.

(** ** PriceFetcher *)

(** [Math.random] is the only source of randomness: a generator is the
    sequence of numbers it will return and the position reached in it. *)
Record Rng (num : Type) : Type := {
  draws : nat -> num;
  cursor : nat
}.

(** Computations that may call [Math.random]. *)
Definition Rand (num A : Type) : Type := Rng num -> A * Rng num.

Definition ret {num A : Type} (a : A) : Rand num A := fun r => (a, r).

Definition bind {num A B : Type} (m : Rand num A) (k : A -> Rand num B) : Rand num B :=
  fun r => let '(a, r') := m r in k a r'.

Notation "x <- m ;; k" := (bind m (fun x => k))
  (at level 61, m at next level, right associativity).

Definition random {num : Type} : Rand num num :=
  fun r => (draws r (cursor r), {| draws := draws r; cursor := S (cursor r) |}).

Definition SYMBOLS : list string :=
  ["BTC"; "ETH"; "SUI"; "AVAX"; "ASTER"; "MOVE"; "KAS"; "SOL"; "MINA"; "ZEC"; "XMR"; "HYPE"]%string.

Definition TIMEFRAMES : list string :=
  ["5m"; "15m"; "30m"; "4h"; "1d"; "3d"; "1w"; "1M"]%string.

Section Fetcher.
Context {num : Type} `{JsNumber num}.
Local Open Scope js_scope.

(** [for (let i = 99; i >= 0; i--)]: [n] is [i + 1].  The literals 0.5
    and 0.1 are written [1 / 2] and [1 / 10]: division is correctly
    rounded, so on binary64 these are the numbers the literals denote. *)
Fixpoint mock_loop (n : nat) (currentPrice : num) (mockData : list num)
  : Rand num (list num) :=
  match n with
  | O => ret mockData
  | S i =>
      u <- random ;;
      let variation := (u - $1 / $2) * ($1 / $10) in
      let price := currentPrice * ($1 + variation * ($i / $100)) in
      mock_loop i currentPrice (mockData ++ [price])
  end.

Definition fetchHistoricalData (symbol timeframe : string) : Rand num (list num) :=
  u <- random ;;
  let currentPrice := u * $10000 in
  mock_loop 100 currentPrice [].

End Fetcher.

(** ** DecisionEngine *)

Inductive Decision : Type := BUY | SELL | HOLD | INSUFFICIENT_DATA.

Inductive Confidence : Type := HIGH | MEDIUM | LOW.

Definition Decision_eqb (a b : Decision) : bool :=
  match a, b with
  | BUY, BUY | SELL, SELL | HOLD, HOLD | INSUFFICIENT_DATA, INSUFFICIENT_DATA => true
  | _, _ => false
  end.

Record Indicators (num : Type) : Type := {
  ma20 : option num;
  ma50 : option num;
  rsi : option num;
  ema12 : option num;
  ema26 : option num;
  bb : option (Bands num);
  macd : option (MACD num)
}.

(** The two shapes of object [analyzeSymbol] returns. *)
Inductive Analysis (num : Type) : Type :=
| Insufficient (symbol timeframe reason : string)
| Analysed (symbol timeframe : string) (currentPrice : num)
    (decision : Decision) (confidence : Confidence)
    (signals : list string) (indicators : Indicators num).

Arguments Insufficient {num}.
Arguments Analysed {num}.

(** [analysis.decision]. *)
Definition decision {num : Type} (a : Analysis num) : Decision :=
  match a with
  | Insufficient _ _ _ => INSUFFICIENT_DATA
  | Analysed _ _ _ d _ _ _ => d
  end.

(** [analysis.confidence]; [None] is [undefined]. *)
Definition confidence {num : Type} (a : Analysis num) : option Confidence :=
  match a with
  | Insufficient _ _ _ => None
  | Analysed _ _ _ _ c _ _ => Some c
  end.

(** [analysis.signals]; [None] is [undefined]. *)
Definition signals {num : Type} (a : Analysis num) : option (list string) :=
  match a with
  | Insufficient _ _ _ => None
  | Analysed _ _ _ _ _ s _ => Some s
  end.

Definition is_bullish (signal : string) : bool :=
  includes "BULLISH" signal || includes "OVERSOLD" signal.

Definition is_bearish (signal : string) : bool :=
  includes "BEARISH" signal || includes "OVERBOUGHT" signal.

Definition bullishCount (signals : list string) : nat :=
  length (filter is_bullish signals).

Definition bearishCount (signals : list string) : nat :=
  length (filter is_bearish signals).

(** A JavaScript object with string keys, in insertion order:
    [obj[key] = v], [obj[key]], [Object.entries(obj)] is the list itself. *)
Fixpoint assign {V : Type} (key : string) (v : V) (obj : list (string * V))
  : list (string * V) :=
  match obj with
  | [] => [(key, v)]
  | (k, x) :: rest =>
      if String.eqb k key then (k, v) :: rest else (k, x) :: assign key v rest
  end.

Fixpoint lookup {V : Type} (key : string) (obj : list (string * V)) : option V :=
  match obj with
  | [] => None
  | (k, x) :: rest => if String.eqb k key then Some x else lookup key rest
  end.

Section Engine.
Context {num : Type} `{JsNumber num}.
Local Open Scope js_scope.

(** [if (v)] on a value that is a number or [null]. *)
Definition truthy_opt (v : option num) : bool :=
  match v with
  | Some x => truthy x
  | None => false
  end.

Definition trend_rule (ma20 ma50 : option num) (signals : list string) : list string :=
  if truthy_opt ma20 && truthy_opt ma50 then
    if toNumber ma20 >? toNumber ma50 then signals ++ ["BULLISH_TREND"%string]
    else signals ++ ["BEARISH_TREND"%string]
  else signals.

Definition rsi_rule (rsi : option num) (signals : list string) : list string :=
  match rsi with
  | Some rsi =>
      if rsi <? $30 then signals ++ ["OVERSOLD"%string]
      else if rsi >? $70 then signals ++ ["OVERBOUGHT"%string]
      else signals ++ ["NEUTRAL_RSI"%string]
  | None => signals
  end.

Definition macd_rule (macd : option (MACD num)) (ema12 ema26 : option num)
    (signals : list string) : list string :=
  match macd with
  | Some _ =>
      if toNumber ema12 >? toNumber ema26 then signals ++ ["BULLISH_MACD"%string]
      else signals ++ ["BEARISH_MACD"%string]
  | None => signals
  end.

Definition bands_rule (bb : option (Bands num)) (currentPrice : num)
    (signals : list string) : list string :=
  match bb with
  | Some bb =>
      if currentPrice >? upper bb then signals ++ ["RESISTANCE_TOUCH"%string]
      else if currentPrice <? lower bb then signals ++ ["SUPPORT_TOUCH"%string]
      else signals ++ ["WITHIN_BANDS"%string]
  | None => signals
  end.

(** The decision and confidence drawn from the two counts. *)
Definition decide (bullishSignals bearishSignals : nat) : Decision * Confidence :=
  if (bearishSignals + 1 <? bullishSignals)%nat then
    (BUY, if (4 <=? bullishSignals)%nat then HIGH else MEDIUM)
  else if (bullishSignals + 1 <? bearishSignals)%nat then
    (SELL, if (4 <=? bearishSignals)%nat then HIGH else MEDIUM)
  else (HOLD, LOW).

(** The body of [analyzeSymbol] once the data has been awaited;
    [historicalData = None] is a [null] or [undefined] result. *)
Definition analyzeFetched (symbol timeframe : string)
    (historicalData : option (list num)) : Analysis num :=
  match historicalData with
  | None => Insufficient symbol timeframe "Not enough historical data"
  | Some historicalData =>
      if (length historicalData <? 20)%nat then
        Insufficient symbol timeframe "Not enough historical data"
      else
        let currentPrice := get historicalData (length historicalData - 1) in
        let ma20 := calculateMA historicalData 20 in
        let ma50 := calculateMA historicalData 50 in
        let rsi := calculateRSI historicalData 14 in
        let ema12 := calculateEMA historicalData 12 in
        let ema26 := calculateEMA historicalData 26 in
        let bb := calculateBollingerBands historicalData 20 $2 in
        let macd := calculateMACD historicalData 12 26 9 in
        let signals := [] in
        let signals := trend_rule ma20 ma50 signals in
        let signals := rsi_rule rsi signals in
        let signals := macd_rule macd ema12 ema26 signals in
        let signals := bands_rule bb currentPrice signals in
        let bullishSignals := bullishCount signals in
        let bearishSignals := bearishCount signals in
        let '(decision, confidence) := decide bullishSignals bearishSignals in
        Analysed symbol timeframe currentPrice decision confidence signals
          {| ma20 := ma20; ma50 := ma50; rsi := rsi; ema12 := ema12;
             ema26 := ema26; bb := bb; macd := macd |}
  end.

(** [analyzeSymbol] over the price source it awaits. *)
Definition analyzeSymbolWith
    (fetch : string -> string -> Rand num (option (list num)))
    (symbol timeframe : string) : Rand num (Analysis num) :=
  historicalData <- fetch symbol timeframe ;;
  ret (analyzeFetched symbol timeframe historicalData).

(** The price source of the program: the mock generator, which always
    returns an array. *)
Definition mockSource (symbol timeframe : string) : Rand num (option (list num)) :=
  mockData <- fetchHistoricalData symbol timeframe ;;
  ret (Some mockData).

Definition analyzeSymbol : string -> string -> Rand num (Analysis num) :=
  analyzeSymbolWith mockSource.

(** The inner loop of [analyzeAllSymbols], filling [results[symbol]]. *)
Fixpoint analyze_timeframes (symbol : string) (timeframes : list string)
    (obj : list (string * Analysis num)) : Rand num (list (string * Analysis num)) :=
  match timeframes with
  | [] => ret obj
  | timeframe :: rest =>
      a <- analyzeSymbol symbol timeframe ;;
      analyze_timeframes symbol rest (assign timeframe a obj)
  end.

Fixpoint analyze_symbols (symbols : list string)
    (results : list (string * list (string * Analysis num)))
  : Rand num (list (string * list (string * Analysis num))) :=
  match symbols with
  | [] => ret results
  | symbol :: rest =>
      obj <- analyze_timeframes symbol TIMEFRAMES [] ;;
      analyze_symbols rest (assign symbol obj results)
  end.

Definition analyzeAllSymbols : Rand num (list (string * list (string * Analysis num))) :=
  analyze_symbols SYMBOLS [].

End Engine.

(** The bodies below are long; proofs unfold them where they mean to. *)
Arguments calculateMA : simpl never.
Arguments calculateEMA : simpl never.
Arguments calculateRSI : simpl never.
Arguments calculateMACD : simpl never.
Arguments calculateBollingerBands : simpl never.
Arguments findSwings : simpl never.
Arguments fetchHistoricalData : simpl never.
Arguments analyzeFetched : simpl never.
Arguments analyzeSymbolWith : simpl never.
Arguments analyzeSymbol : simpl never.

(** ** The [/signals] handler: aggregation over the timeframes of a symbol *)

Definition countOf (d : Decision) (decisions : list Decision) : nat :=
  length (filter (fun x => Decision_eqb x d) decisions).

Definition aggregatedDecision (decisions : list Decision) : Decision :=
  let buyCount := countOf BUY decisions in
  let sellCount := countOf SELL decisions in
  let holdCount := countOf HOLD decisions in
  if (sellCount <? buyCount)%nat && (holdCount <? buyCount)%nat then BUY
  else if (buyCount <? sellCount)%nat && (holdCount <? sellCount)%nat then SELL
  else HOLD.

(** The number printed before [/] in the [Timeframes:] line. *)
Definition validCount (decisions : list Decision) : nat :=
  length (filter (fun d => negb (Decision_eqb d INSUFFICIENT_DATA)) decisions).

(** What the handler reports for one symbol: the aggregated decision, the
    valid count and [TIMEFRAMES.length]. *)
Definition aggregate {num : Type} (symbolAnalyses : list (string * Analysis num))
  : Decision * nat * nat :=
  let decisions := map (fun entry => decision (snd entry)) symbolAnalyses in
  (aggregatedDecision decisions, validCount decisions, length TIMEFRAMES).

(** ** [periodicAnalysis]: the high-confidence alert scan *)

Definition Decision_name (d : Decision) : string :=
  match d with
  | BUY => "BUY"
  | SELL => "SELL"
  | HOLD => "HOLD"
  | INSUFFICIENT_DATA => "INSUFFICIENT_DATA"
  end.

Definition newline : string := String (ascii_of_nat 10) EmptyString.

Definition alertHeader : string := "*Market Alert*" ++ newline ++ newline.

Record Session : Type := { subscribed : bool }.

Section Alerts.
Context {num : Type}.

(** One iteration of the loop over [Object.entries(symbolAnalyses)]; the
    state is [(alertMessage, hasAlert)]. *)
Definition scan_entry (symbol : string) (st : string * bool)
    (entry : string * Analysis num) : string * bool :=
  let '(alertMessage, hasAlert) := st in
  let '(timeframe, analysis) := entry in
  match confidence analysis with
  | Some HIGH =>
      (alertMessage ++ symbol ++ " (" ++ timeframe ++ "): "
         ++ Decision_name (decision analysis) ++ " - Confidence: HIGH" ++ newline,
       true)%string
  | _ => (alertMessage, hasAlert)
  end.

(** The loop over [SYMBOLS]; [None] when [analysisResults[symbol]] is
    missing, where [Object.entries] throws. *)
Fixpoint scan_symbols (symbols : list string)
    (analysisResults : list (string * list (string * Analysis num)))
    (st : string * bool) : option (string * bool) :=
  match symbols with
  | [] => Some st
  | symbol :: rest =>
      match lookup symbol analysisResults with
      | None => None
      | Some symbolAnalyses =>
          scan_symbols rest analysisResults
            (fold_left (scan_entry symbol) symbolAnalyses st)
      end
  end.

Definition scanForAlerts (analysisResults : list (string * list (string * Analysis num)))
  : option (string * bool) :=
  scan_symbols SYMBOLS analysisResults (alertHeader, false).

(** The loop over the sessions: the messages sent, as [(chatId, text)].
    An exception leaves the loop (it is caught and logged outside it). *)
Fixpoint notify (sessions : list (string * Session))
    (analysisResults : list (string * list (string * Analysis num)))
  : list (string * string) :=
  match sessions with
  | [] => []
  | (chatId, session) :: rest =>
      if subscribed session then
        match scanForAlerts analysisResults with
        | None => []
        | Some (alertMessage, hasAlert) =>
            (if hasAlert then [(chatId, alertMessage)] else [])
              ++ notify rest analysisResults
        end
      else notify rest analysisResults
  end.

End Alerts.

Definition periodicAnalysis {num : Type} `{JsNumber num}
    (sessions : list (string * Session)) : Rand num (list (string * string)) :=
  analysisResults <- analyzeAllSymbols ;;
  ret (notify sessions analysisResults).

(** ** TechnicalIndicators.calculateFibonacciLevels *)


Section Fibonacci.
Context {num : Type} `{JsNumber num}.
Local Open Scope js_scope.


End Fibonacci.

(** ** SMCAnalysis.identifyOrderBlocks *)

Inductive BlockType : Type := bullish | bearish.

Record OrderBlock (num : Type) : Type := {
  block_type : BlockType;
  block_high : num;
  block_low : num;
  confirmed : bool
}.

Section OrderBlocks.
Context {num : Type} `{JsNumber num}.
Local Open Scope js_scope.

(** One iteration of [for (const swing of swings)]; the state is
    [(orderBlocks, currentHigh, currentLow)], [None] being [null].  With
    a tracked swing the two tests of the [if ... else if] are the same
    comparison; without one, the first fails and [!current] holds. *)
Definition block_step
    (st : list (OrderBlock num) * option (Swing num) * option (Swing num))
    (swing : Swing num)
  : list (OrderBlock num) * option (Swing num) * option (Swing num) :=
  let '(orderBlocks, currentHigh, currentLow) := st in
  match swing_type swing with
  | high =>
      match currentHigh with
      | Some h =>
          if swing_price swing >? swing_price h then
            (orderBlocks ++ [{| block_type := bullish;
                                block_high := swing_price h;
                                block_low := swing_price swing;
                                confirmed := false |}],
             Some swing, currentLow)
          else if swing_price swing >? swing_price h then
            (orderBlocks, Some swing, currentLow)
          else (orderBlocks, currentHigh, currentLow)
      | None => (orderBlocks, Some swing, currentLow)
      end
  | low =>
      match currentLow with
      | Some l =>
          if swing_price swing <? swing_price l then
            (orderBlocks ++ [{| block_type := bearish;
                                block_high := swing_price swing;
                                block_low := swing_price l;
                                confirmed := false |}],
             currentHigh, Some swing)
          else if swing_price swing <? swing_price l then
            (orderBlocks, currentHigh, Some swing)
          else (orderBlocks, currentHigh, currentLow)
      | None => (orderBlocks, currentHigh, Some swing)
      end
  end.

Definition identifyOrderBlocks (swings : list (Swing num)) : list (OrderBlock num) :=
  fst (fst (fold_left block_step swings ([], None, None))).

End OrderBlocks.

(** ** The two readings of numbers *)

(** Binary64: the numbers of the program.  [Math.pow(x, 2)] is taken to
    be the correctly rounded square [x * x]; [of_nat] is exact below
    2^53. *)
#[export] Instance binary64 : JsNumber float := {|
  nadd := PrimFloat.add;
  nsub := PrimFloat.sub;
  nmul := PrimFloat.mul;
  ndiv := PrimFloat.div;
  nsqrt := PrimFloat.sqrt;
  pow2 := fun x => PrimFloat.mul x x;
  nltb := PrimFloat.ltb;
  nleb := PrimFloat.leb;
  neqb := PrimFloat.eqb;
  of_nat := fun n => PrimFloat.of_uint63 (Uint63.of_Z (Z.of_nat n));
  truthy := fun x => negb (PrimFloat.eqb x PrimFloat.zero || PrimFloat.is_nan x);
  undef := PrimFloat.nan
|}.

(** A rational square root: [sqrt x] rounded down to a multiple of
    [1 / (den x * 10^9)], and 0 below 0.  It is exact on 0 and never
    negative, which is all the properties below use. *)
Definition Qc_sqrt (x : Qc) : Qc :=
  let n := Qnum x in
  let d := Qden x in
  Q2Qc (Qmake (Z.sqrt (n * Zpos d * (10 ^ 18))) (d * 1000000000)).

(** Exact rationals.  Division by zero and reads out of range have no
    exact counterpart (they are 0 here); the properties proved at this
    instance carry the hypotheses that keep the code away from both. *)
#[export] Instance rational : JsNumber Qc := {|
  nadd := Qcplus;
  nsub := Qcminus;
  nmul := Qcmult;
  ndiv := Qcdiv;
  nsqrt := Qc_sqrt;
  pow2 := fun x => Qcmult x x;
  nltb := fun x y => negb (Qle_bool y x);
  nleb := fun x y => Qle_bool x y;
  neqb := fun x y => Qeq_bool x y;
  of_nat := fun n => Q2Qc (inject_Z (Z.of_nat n));
  truthy := fun x => negb (Qeq_bool x 0%Q);
  undef := Q2Qc 0%Q
|}.

(** Series written with integers, at either instance. *)
Definition series {num : Type} `{JsNumber num} (l : list nat) : list num :=
  map of_nat l.

(** * Vocabulary of the properties *)

Unset Implicit Arguments.

(** [analysis.signals], empty when the field is absent. *)
Definition tags {num : Type} (a : Analysis num) : list string :=
  match signals a with
  | Some s => s
  | None => []
  end.

Definition calm {num : Type} (a : Analysis num) : Prop := confidence a <> Some HIGH.

Section Vocabulary.
Context {num : Type} `{JsNumber num}.
Local Open Scope js_scope.

(** The signal list [analyzeSymbol] builds from a series. *)
Definition signalsOf (historicalData : list num) : list string :=
  bands_rule (calculateBollingerBands historicalData 20 (of_nat 2))
    (get historicalData (length historicalData - 1))
    (macd_rule (calculateMACD historicalData 12 26 9)
       (calculateEMA historicalData 12) (calculateEMA historicalData 26)
       (rsi_rule (calculateRSI historicalData 14)
          (trend_rule (calculateMA historicalData 20) (calculateMA historicalData 50) []))).

(** The recurrence of the design document: [ema_0 = series[0]] and
    [ema_i = price_i * k + ema_{i-1} * (1 - k)]. *)
Fixpoint ema_recurrence (k : num) (series : list num) (i : nat) : num :=
  match i with
  | O => get series 0
  | S j => get series (S j) * k + ema_recurrence k series j * ($1 - k)
  end.

(** [prices[k] < prices[k+1]] for every pair of neighbours. *)
Fixpoint strictly_increasing (prices : list num) : bool :=
  match prices with
  | x :: (y :: _) as rest => nltb x y && strictly_increasing rest
  | _ => true
  end.

(** [prices[k] > prices[k+1]] for every pair of neighbours. *)
Fixpoint strictly_decreasing (prices : list num) : bool :=
  match prices with
  | x :: (y :: _) as rest => nltb y x && strictly_decreasing rest
  | _ => true
  end.

(** What the list of swings holds after the candidates below [hi]. *)
Definition swings_sound (prices : list num) (windowSize hi : nat)
    (swings : list (Swing num)) : Prop :=
  forall sw, In sw swings ->
    windowSize <= swing_index sw < hi /\
    swing_price sw = get prices (swing_index sw) /\
    match swing_type sw with
    | high => fst (window_flags prices windowSize (swing_index sw)) = true
    | low => fst (window_flags prices windowSize (swing_index sw)) = false /\
             snd (window_flags prices windowSize (swing_index sw)) = true
    end.


End Vocabulary.

(** What the comparisons of numbers must satisfy for the properties of
    [findSwings]: [x < y] implies [x <= y], and [x === y] implies both
    [x <= y] and [y <= x]. *)
Class OrderLaws (num : Type) `{JsNumber num} : Prop := {
  nltb_nleb : forall x y : num, nltb x y = true -> nleb x y = true;
  neqb_nleb : forall x y : num, neqb x y = true -> nleb x y = true /\ nleb y x = true
}.

(** ** Vocabulary of the further properties *)

Section FurtherVocabulary.
Context {num : Type} `{JsNumber num}.

(** What holds of a block, given the swings it may come from. *)
Definition block_from (swings : list (Swing num)) (b : OrderBlock num) : Prop :=
  confirmed b = false /\
  nltb (block_high b) (block_low b) = true /\
  exists tracked new,
    In tracked swings /\ In new swings /\
    match block_type b with
    | bullish =>
        swing_type tracked = high /\ swing_type new = high /\
        block_high b = swing_price tracked /\ block_low b = swing_price new
    | bearish =>
        swing_type tracked = low /\ swing_type new = low /\
        block_high b = swing_price new /\ block_low b = swing_price tracked
    end.

(** The invariant of the loop of [identifyOrderBlocks]. *)
Definition blocks_inv (swings : list (Swing num))
    (st : list (OrderBlock num) * option (Swing num) * option (Swing num)) : Prop :=
  let '(orderBlocks, currentHigh, currentLow) := st in
  Forall (block_from swings) orderBlocks /\
  (forall h, currentHigh = Some h -> In h swings /\ swing_type h = high) /\
  (forall l, currentLow = Some l -> In l swings /\ swing_type l = low).

(** How many of [currentHigh] and [currentLow] are set. *)
Definition tracked_count (st : list (OrderBlock num) * option (Swing num) * option (Swing num))
  : nat :=
  let '(_, currentHigh, currentLow) := st in
  match currentHigh with Some _ => 1 | None => 0 end
  + match currentLow with Some _ => 1 | None => 0 end.

(** An analysis that had enough data. *)
Definition decided (a : Analysis num) : Prop := decision a <> INSUFFICIENT_DATA.

(** Every symbol's object: the eight timeframes in order, all decided. *)
Definition full_object (obj : list (string * Analysis num)) : Prop :=
  map fst obj = TIMEFRAMES /\ Forall (fun e => decided (snd e)) obj.

End FurtherVocabulary.



(** A decision that is a vote: anything but INSUFFICIENT_DATA. *)
Definition is_vote (d : Decision) : bool := negb (Decision_eqb d INSUFFICIENT_DATA).


(** ** Fixtures *)




(** A generator that always returns 0.5, and one that differs from it
    after the 101 draws of one [fetchHistoricalData]. *)
Definition rng_half : Rng float :=
  {| draws := fun _ => ndiv (of_nat 1) (of_nat 2); cursor := 0 |}.

Definition rng_half_then_quarter : Rng float :=
  {| draws := fun n => if n <? 101 then ndiv (of_nat 1) (of_nat 2)
                       else ndiv (of_nat 1) (of_nat 4);
     cursor := 0 |}.

(** A generator that always returns 0.25. *)
Definition rng_quarter : Rng float :=
  {| draws := fun _ => ndiv (of_nat 1) (of_nat 4); cursor := 0 |}.

(** A price source that returns a given series. *)
Definition fixedSource {num : Type} (prices : list num)
  : string -> string -> Rand num (option (list num)) :=
  fun _ _ => ret (Some prices).


(** Two high swings, the second above the first. *)
Definition rising_highs : list (Swing float) :=
  [ {| swing_type := high; swing_index := 5; swing_price := of_nat 1 |};
    {| swing_type := high; swing_index := 12; swing_price := of_nat 2 |} ].


(** * Properties *)

(** ** Loops *)

Lemma iterate_from_ext {St : Type} (f g : nat -> St -> St) :
  forall count i s,
    (forall j s', i <= j < i + count -> f j s' = g j s') ->
    iterate_from i count f s = iterate_from i count g s.
Proof.
  induction count as [|count IH]; intros i s Hfg; simpl.
  - reflexivity.
  - rewrite (Hfg i s) by lia. apply IH. intros j s' Hj. apply Hfg. lia.
Qed.

Lemma iterate_from_ind {St : Type} (P : nat -> St -> Prop) (f : nat -> St -> St) :
  forall count i s,
    P i s ->
    (forall j s', i <= j < i + count -> P j s' -> P (S j) (f j s')) ->
    P (i + count) (iterate_from i count f s).
Proof.
  induction count as [|count IH]; intros i s Hs Hstep; simpl.
  - now rewrite Nat.add_0_r.
  - replace (i + S count) with (S i + count) by lia.
    apply IH.
    + apply Hstep; [lia | assumption].
    + intros j s' Hj. apply Hstep. lia.
Qed.

Lemma for_loop_ext {St : Type} (f g : nat -> St -> St) lo hi s :
  (forall j s', lo <= j < hi -> f j s' = g j s') ->
  for_loop lo hi f s = for_loop lo hi g s.
Proof.
  intros Hfg. unfold for_loop. apply iterate_from_ext.
  intros j s' Hj. apply Hfg. lia.
Qed.

(** An invariant of a loop that runs at least from [lo] to [hi]. *)
Lemma for_loop_ind {St : Type} (P : nat -> St -> Prop) (f : nat -> St -> St) lo hi s :
  lo <= hi ->
  P lo s ->
  (forall j s', lo <= j < hi -> P j s' -> P (S j) (f j s')) ->
  P hi (for_loop lo hi f s).
Proof.
  intros Hle Hs Hstep. unfold for_loop.
  replace hi with (lo + (hi - lo)) at 1 by lia.
  apply iterate_from_ind; [assumption|].
  intros j s' Hj. apply Hstep. lia.
Qed.

(** ** The decision rule *)

Lemma bullishCount_snoc l t :
  bullishCount (l ++ [t]) = bullishCount l + (if is_bullish t then 1 else 0).
Proof.
  unfold bullishCount. rewrite filter_app, length_app. simpl.
  destruct (is_bullish t); reflexivity.
Qed.

Lemma bearishCount_snoc l t :
  bearishCount (l ++ [t]) = bearishCount l + (if is_bearish t then 1 else 0).
Proof.
  unfold bearishCount. rewrite filter_app, length_app. simpl.
  destruct (is_bearish t); reflexivity.
Qed.

Lemma decide_BUY b s : fst (decide b s) = BUY <-> b > s + 1.
Proof.
  unfold decide.
  destruct (Nat.ltb_spec (s + 1) b); [simpl; intuition lia|].
  destruct (Nat.ltb_spec (b + 1) s); simpl; split; (discriminate || lia).
Qed.

Lemma decide_SELL b s : fst (decide b s) = SELL <-> s > b + 1.
Proof.
  unfold decide.
  destruct (Nat.ltb_spec (s + 1) b); [simpl; split; (discriminate || lia)|].
  destruct (Nat.ltb_spec (b + 1) s); simpl; split; (discriminate || lia || auto).
Qed.

Lemma decide_HOLD b s : fst (decide b s) = HOLD <-> ~ b > s + 1 /\ ~ s > b + 1.
Proof.
  unfold decide.
  destruct (Nat.ltb_spec (s + 1) b); [simpl; split; [discriminate | lia]|].
  destruct (Nat.ltb_spec (b + 1) s); simpl; split; (discriminate || lia || auto).
Qed.

Lemma decide_confidence b s :
  (fst (decide b s) = BUY -> snd (decide b s) = if (4 <=? b)%nat then HIGH else MEDIUM) /\
  (fst (decide b s) = SELL -> snd (decide b s) = if (4 <=? s)%nat then HIGH else MEDIUM) /\
  (fst (decide b s) = HOLD -> snd (decide b s) = LOW).
Proof.
  unfold decide.
  destruct (s + 1 <? b)%nat; [simpl; repeat split; (reflexivity || discriminate)|].
  destruct (b + 1 <? s)%nat; simpl; repeat split; (reflexivity || discriminate).
Qed.

Section DecisionRule.
Context {num : Type} `{JsNumber num}.

Lemma analyzeFetched_enough symbol timeframe (data : list num) :
  20 <= length data ->
  let d := decide (bullishCount (signalsOf data)) (bearishCount (signalsOf data)) in
  decision (analyzeFetched symbol timeframe (Some data)) = fst d /\
  confidence (analyzeFetched symbol timeframe (Some data)) = Some (snd d) /\
  tags (analyzeFetched symbol timeframe (Some data)) = signalsOf data.
Proof.
  intros Hlen. unfold analyzeFetched.
  destruct (Nat.ltb_spec (length data) 20) as [Hlt|_]; [lia|].
  fold (signalsOf data).
  destruct (decide (bullishCount (signalsOf data)) (bearishCount (signalsOf data)));
    simpl; auto.
Qed.

Lemma analyzeFetched_short symbol timeframe (data : option (list num)) :
  (data = None \/ exists l, data = Some l /\ length l < 20) ->
  analyzeFetched symbol timeframe data
  = Insufficient symbol timeframe "Not enough historical data".
Proof.
  intros [-> | (l & -> & Hl)]; unfold analyzeFetched; [reflexivity|].
  destruct (Nat.ltb_spec (length l) 20); [reflexivity | lia].
Qed.

End DecisionRule.

Section DecisionClaims.
Context {num : Type} `{JsNumber num}.

(** C1.  Whatever the price source returns, as soon as the series has at
    least 20 points the decision of [analyzeSymbol] is BUY exactly when
    the bullish count exceeds the bearish count by more than one, SELL
    exactly when the bearish count exceeds the bullish count by more than
    one, and HOLD otherwise; with BUY or SELL the confidence is HIGH
    exactly when the winning count is at least 4 and MEDIUM otherwise,
    and with HOLD it is LOW. *)
Theorem analyzeSymbol_decision_rule :
  forall (fetch : string -> string -> Rand num (option (list num)))
         (symbol timeframe : string) (r : Rng num) (prices : list num),
    fst (fetch symbol timeframe r) = Some prices ->
    20 <= length prices ->
    let a := fst (analyzeSymbolWith fetch symbol timeframe r) in
    let bullish := bullishCount (tags a) in
    let bearish := bearishCount (tags a) in
    (decision a = BUY <-> bullish > bearish + 1) /\
    (decision a = SELL <-> bearish > bullish + 1) /\
    (decision a = HOLD <-> ~ bullish > bearish + 1 /\ ~ bearish > bullish + 1) /\
    (decision a = BUY ->
       (confidence a = Some HIGH <-> bullish >= 4) /\
       (confidence a = Some MEDIUM <-> bullish < 4)) /\
    (decision a = SELL ->
       (confidence a = Some HIGH <-> bearish >= 4) /\
       (confidence a = Some MEDIUM <-> bearish < 4)) /\
    (decision a = HOLD -> confidence a = Some LOW).
Proof.
  intros fetch symbol timeframe r prices Hfetch Hlen.
  unfold analyzeSymbolWith, bind, ret.
  destruct (fetch symbol timeframe r) as [data r'] eqn:E. simpl in Hfetch. subst data.
  cbv beta iota zeta delta [fst].
  destruct (analyzeFetched_enough symbol timeframe prices Hlen) as (Hd & Hc & Ht).
  rewrite Hd, Hc, Ht.
  set (b := bullishCount (signalsOf prices)).
  set (s := bearishCount (signalsOf prices)).
  destruct (decide_confidence b s) as (HB & HS & HH).
  split; [apply decide_BUY|].
  split; [apply decide_SELL|].
  split; [apply decide_HOLD|].
  split; [|split].
  - intros E1. rewrite (HB E1).
    destruct (Nat.leb_spec 4 b); split; split; intros; try discriminate; try lia; reflexivity.
  - intros E1. rewrite (HS E1).
    destruct (Nat.leb_spec 4 s); split; split; intros; try discriminate; try lia; reflexivity.
  - intros E1. now rewrite (HH E1).
Qed.

(** C4.  When the price source returns nothing, or fewer than 20 points,
    [analyzeSymbol] returns the record made of the symbol, the timeframe,
    the decision INSUFFICIENT_DATA and the reason; that record holds no
    indicator, and the call draws nothing from the generator beyond what
    the source drew. *)
Theorem analyzeSymbol_insufficient_data :
  forall (fetch : string -> string -> Rand num (option (list num)))
         (symbol timeframe : string) (r : Rng num),
    (fst (fetch symbol timeframe r) = None \/
     exists prices, fst (fetch symbol timeframe r) = Some prices /\ length prices < 20) ->
    analyzeSymbolWith fetch symbol timeframe r
    = (Insufficient symbol timeframe "Not enough historical data",
       snd (fetch symbol timeframe r)) /\
    decision (fst (analyzeSymbolWith fetch symbol timeframe r)) = INSUFFICIENT_DATA.
Proof.
  intros fetch symbol timeframe r Hdata.
  unfold analyzeSymbolWith, bind, ret.
  destruct (fetch symbol timeframe r) as [data r'] eqn:E. simpl in *.
  rewrite analyzeFetched_short by exact Hdata. split; reflexivity.
Qed.

(** C3.  All randomness is in the price source: two runs whose sources
    return the same series return the same analysis record, whatever the
    states of the generator, and the analysis itself draws no random
    number. *)
Theorem analyzeSymbol_deterministic :
  forall (fetch : string -> string -> Rand num (option (list num)))
         (symbol timeframe : string) (r1 r2 : Rng num),
    fst (fetch symbol timeframe r1) = fst (fetch symbol timeframe r2) ->
    fst (analyzeSymbolWith fetch symbol timeframe r1)
    = fst (analyzeSymbolWith fetch symbol timeframe r2) /\
    snd (analyzeSymbolWith fetch symbol timeframe r1) = snd (fetch symbol timeframe r1) /\
    snd (analyzeSymbolWith fetch symbol timeframe r2) = snd (fetch symbol timeframe r2).
Proof.
  intros fetch symbol timeframe r1 r2 Hsame.
  unfold analyzeSymbolWith, bind, ret.
  destruct (fetch symbol timeframe r1) as [d1 r1'].
  destruct (fetch symbol timeframe r2) as [d2 r2'].
  simpl in *. subst d2. auto.
Qed.

End DecisionClaims.

(** The price source of the program always returns 100 points, so the
    guard of [analyzeSymbol] never fires on it. *)
Lemma mock_loop_length {num : Type} `{JsNumber num} :
  forall n currentPrice mockData (r : Rng num),
    length (fst (mock_loop n currentPrice mockData r)) = length mockData + n.
Proof.
  induction n as [|n IH]; intros currentPrice mockData r.
  - cbn [mock_loop ret fst]. lia.
  - cbn [mock_loop]. unfold bind, random. rewrite IH, length_app.
    cbn [length]. lia.
Qed.

Lemma mockSource_length {num : Type} `{JsNumber num} symbol timeframe (r : Rng num) :
  exists prices, fst (mockSource symbol timeframe r) = Some prices /\ length prices = 100.
Proof.
  unfold mockSource, fetchHistoricalData, bind, random, ret.
  pose proof (mock_loop_length 100 (nmul (draws r (cursor r)) (of_nat 10000)) []
                {| draws := draws r; cursor := S (cursor r) |}) as Hlen.
  destruct (mock_loop 100 _ [] _) as [mockData r'].
  cbn [fst length] in *. exists mockData. split; [reflexivity | exact Hlen].
Qed.

(** [analyzeSymbol(symbol, timeframe)] itself follows the draws of
    [Math.random]: the same call under two generators. *)
Example analyzeSymbol_follows_the_draws :
  decision (fst (analyzeSymbol "BTC" "1d" rng_half)) = SELL /\
  decision (fst (analyzeSymbol "BTC" "1d" rng_quarter)) = HOLD.
Proof. split; vm_compute; reflexivity. Qed.

(** ** The HIGH confidence is out of reach *)

Lemma decide_not_HIGH b s : b <= 3 -> s <= 3 -> snd (decide b s) <> HIGH.
Proof.
  intros Hb Hs. unfold decide.
  destruct (s + 1 <? b)%nat.
  - cbn [snd]. destruct (Nat.leb_spec 4 b); [lia | discriminate].
  - destruct (b + 1 <? s)%nat; cbn [snd]; [|discriminate].
    destruct (Nat.leb_spec 4 s); [lia | discriminate].
Qed.

Lemma lookup_assign_same {V : Type} key (v : V) obj :
  lookup key (assign key v obj) = Some v.
Proof.
  induction obj as [|[k x] rest IH]; simpl.
  - now rewrite String.eqb_refl.
  - destruct (String.eqb k key) eqn:E; simpl; rewrite E; auto.
Qed.

Lemma lookup_assign_present {V : Type} key key' (v : V) obj :
  lookup key' obj <> None -> lookup key' (assign key v obj) <> None.
Proof.
  induction obj as [|[k x] rest IH]; simpl; [congruence|].
  destruct (String.eqb k key) eqn:E; simpl.
  - destruct (String.eqb k key'); [discriminate | auto].
  - destruct (String.eqb k key'); [discriminate | auto].
Qed.

Lemma assign_Forall {V : Type} (P : V -> Prop) key (v : V) obj :
  P v -> Forall (fun e => P (snd e)) obj ->
  Forall (fun e => P (snd e)) (assign key v obj).
Proof.
  intros Hv. induction 1 as [|[k x] rest Hx Hrest IH]; simpl.
  - constructor; [exact Hv | constructor].
  - destruct (String.eqb k key); constructor; auto.
Qed.

Section Unreachable.
Context {num : Type} `{JsNumber num}.

(** The four rule groups: how each moves the two counts. *)
Lemma trend_rule_counts (a b : option num) l :
  bullishCount (trend_rule a b l) + bearishCount (trend_rule a b l)
  <= bullishCount l + bearishCount l + 1 /\
  bullishCount l <= bullishCount (trend_rule a b l) <= bullishCount l + 1 /\
  bearishCount l <= bearishCount (trend_rule a b l) <= bearishCount l + 1.
Proof.
  unfold trend_rule.
  destruct (truthy_opt a && truthy_opt b); [|lia].
  destruct (nltb (toNumber b) (toNumber a));
    rewrite bullishCount_snoc, bearishCount_snoc; simpl; lia.
Qed.

Lemma rsi_rule_counts (v : option num) l :
  bullishCount l <= bullishCount (rsi_rule v l) <= bullishCount l + 1 /\
  bearishCount l <= bearishCount (rsi_rule v l) <= bearishCount l + 1.
Proof.
  unfold rsi_rule. destruct v as [x|]; [|lia].
  destruct (nltb x (of_nat 30)); [|destruct (nltb (of_nat 70) x)];
    rewrite bullishCount_snoc, bearishCount_snoc; simpl; lia.
Qed.

Lemma macd_rule_counts (m : option (MACD num)) (a b : option num) l :
  bullishCount l <= bullishCount (macd_rule m a b l) <= bullishCount l + 1 /\
  bearishCount l <= bearishCount (macd_rule m a b l) <= bearishCount l + 1.
Proof.
  unfold macd_rule. destruct m as [m|]; [|lia].
  destruct (nltb (toNumber b) (toNumber a));
    rewrite bullishCount_snoc, bearishCount_snoc; simpl; lia.
Qed.

(** No Bollinger tag is counted on either side. *)
Lemma bands_rule_counts (b : option (Bands num)) (p : num) l :
  bullishCount (bands_rule b p l) = bullishCount l /\
  bearishCount (bands_rule b p l) = bearishCount l.
Proof.
  unfold bands_rule. destruct b as [b|]; [|lia].
  destruct (nltb (upper b) p); [|destruct (nltb p (lower b))];
    rewrite bullishCount_snoc, bearishCount_snoc; simpl; lia.
Qed.

Lemma signalsOf_counts (prices : list num) :
  bullishCount (signalsOf prices) <= 3 /\ bearishCount (signalsOf prices) <= 3.
Proof.
  unfold signalsOf.
  set (l1 := trend_rule _ _ []).
  set (l2 := rsi_rule _ l1).
  set (l3 := macd_rule _ _ _ l2).
  destruct (bands_rule_counts (calculateBollingerBands prices 20 (of_nat 2))
              (get prices (length prices - 1)) l3) as [-> ->].
  pose proof (macd_rule_counts (calculateMACD prices 12 26 9)
                (calculateEMA prices 12) (calculateEMA prices 26) l2) as H3.
  pose proof (rsi_rule_counts (calculateRSI prices 14) l1) as H2.
  pose proof (trend_rule_counts (calculateMA prices 20) (calculateMA prices 50) []) as H1.
  fold l1 in H1. fold l2 in H2. fold l1 in H2. fold l3 in H3. fold l2 in H3.
  change (bullishCount (@nil string)) with 0 in H1.
  change (bearishCount (@nil string)) with 0 in H1.
  lia.
Qed.

Lemma analyzeFetched_counts symbol timeframe (data : option (list num)) :
  bullishCount (tags (analyzeFetched symbol timeframe data)) <= 3 /\
  bearishCount (tags (analyzeFetched symbol timeframe data)) <= 3 /\
  confidence (analyzeFetched symbol timeframe data) <> Some HIGH.
Proof.
  destruct data as [l|].
  - destruct (Nat.lt_ge_cases (length l) 20) as [Hlt|Hge].
    + rewrite analyzeFetched_short by (right; exists l; auto).
      cbn [tags signals confidence]. split; [|split]; [apply Nat.le_0_l.. | discriminate].
    + destruct (analyzeFetched_enough symbol timeframe l Hge) as (_ & Hc & Ht).
      rewrite Hc, Ht. destruct (signalsOf_counts l) as [Hb Hs].
      repeat split; try assumption.
      intros E. injection E. now apply decide_not_HIGH.
  - cbn [analyzeFetched tags signals confidence].
    split; [|split]; [apply Nat.le_0_l.. | discriminate].
Qed.

Lemma analyzeSymbolWith_calm (fetch : string -> string -> Rand num (option (list num)))
    symbol timeframe (r : Rng num) :
  calm (fst (analyzeSymbolWith fetch symbol timeframe r)).
Proof.
  unfold analyzeSymbolWith, bind, ret.
  destruct (fetch symbol timeframe r) as [data r'].
  cbv beta iota zeta delta [fst].
  exact (proj2 (proj2 (analyzeFetched_counts symbol timeframe data))).
Qed.

Lemma analyzeSymbol_unfold : analyzeSymbol = analyzeSymbolWith mockSource.
Proof. reflexivity. Qed.

Lemma analyzeSymbol_calm symbol timeframe (r : Rng num) :
  calm (fst (analyzeSymbol symbol timeframe r)).
Proof.
  rewrite analyzeSymbol_unfold.
  exact (analyzeSymbolWith_calm mockSource symbol timeframe r).
Qed.

Lemma analyze_timeframes_calm symbol :
  forall timeframes obj (r : Rng num),
    Forall (fun e => calm (snd e)) obj ->
    Forall (fun e => calm (snd e)) (fst (analyze_timeframes symbol timeframes obj r)).
Proof.
  induction timeframes as [|tf rest IH]; intros obj r Hobj.
  - exact Hobj.
  - cbn [analyze_timeframes]. unfold bind.
    pose proof (analyzeSymbol_calm symbol tf r) as Ha.
    destruct (analyzeSymbol symbol tf r) as [a r']. cbn [fst] in Ha.
    apply IH. now apply assign_Forall.
Qed.

Lemma analyze_symbols_calm :
  forall symbols results (r : Rng num),
    Forall (fun e => Forall (fun e' => calm (snd e')) (snd e)) results ->
    Forall (fun e => Forall (fun e' => calm (snd e')) (snd e))
      (fst (analyze_symbols symbols results r)).
Proof.
  induction symbols as [|symbol rest IH]; intros results r Hres.
  - exact Hres.
  - cbn [analyze_symbols]. unfold bind.
    pose proof (analyze_timeframes_calm symbol TIMEFRAMES [] r (Forall_nil _)) as Hobj.
    destruct (analyze_timeframes symbol TIMEFRAMES [] r) as [obj r']. cbn [fst] in Hobj.
    apply IH.
    now apply (assign_Forall (fun o => Forall (fun e' => calm (snd e')) o)).
Qed.

Lemma analyze_symbols_present :
  forall symbols results (r : Rng num) key,
    In key symbols \/ lookup key results <> None ->
    lookup key (fst (analyze_symbols symbols results r)) <> None.
Proof.
  induction symbols as [|symbol rest IH]; intros results r key Hkey.
  - destruct Hkey as [[]|Hk]. exact Hk.
  - cbn [analyze_symbols]. unfold bind.
    destruct (analyze_timeframes symbol TIMEFRAMES [] r) as [obj r'].
    apply IH.
    destruct Hkey as [[<-|Hin]|Hk].
    + right. rewrite lookup_assign_same. discriminate.
    + now left.
    + right. now apply lookup_assign_present.
Qed.

End Unreachable.

Section AlertScan.
Context {num : Type}.

Lemma scan_entry_calm symbol st (e : string * Analysis num) :
  calm (snd e) -> scan_entry symbol st e = st.
Proof.
  destruct st as [msg flag], e as [tf a]. unfold calm, scan_entry. simpl.
  destruct (confidence a) as [[| |]|]; congruence.
Qed.

Lemma fold_scan_calm symbol (obj : list (string * Analysis num)) :
  forall st, Forall (fun e => calm (snd e)) obj ->
             fold_left (scan_entry symbol) obj st = st.
Proof.
  induction obj as [|e rest IH]; intros st Hobj; simpl; [reflexivity|].
  inversion Hobj; subst. rewrite scan_entry_calm by assumption. now apply IH.
Qed.

Lemma lookup_Forall {V : Type} (P : V -> Prop) key (obj : list (string * V)) v :
  Forall (fun e => P (snd e)) obj -> lookup key obj = Some v -> P v.
Proof.
  induction 1 as [|[k x] rest Hx Hrest IH]; simpl; [discriminate|].
  destruct (String.eqb k key); [|exact IH].
  intros E. injection E as <-. exact Hx.
Qed.

Lemma scan_symbols_calm (results : list (string * list (string * Analysis num))) :
  Forall (fun e => Forall (fun e' => calm (snd e')) (snd e)) results ->
  forall symbols st,
    (forall key, In key symbols -> lookup key results <> None) ->
    scan_symbols symbols results st = Some st.
Proof.
  intros Hcalm. induction symbols as [|symbol rest IH]; intros st Hkeys; simpl.
  - reflexivity.
  - destruct (lookup symbol results) as [obj|] eqn:E.
    + rewrite fold_scan_calm.
      * apply IH. intros key Hin. apply Hkeys. now right.
      * exact (lookup_Forall (fun o => Forall (fun e' => calm (snd e')) o)
                 symbol results obj Hcalm E).
    + exfalso. apply (Hkeys symbol); [now left | exact E].
Qed.

Lemma notify_quiet (results : list (string * list (string * Analysis num))) :
  scanForAlerts results = Some (alertHeader, false) ->
  forall sessions, notify sessions results = [].
Proof.
  intros Hscan. induction sessions as [|[chatId session] rest IH]; simpl.
  - reflexivity.
  - destruct (subscribed session); [|exact IH].
    rewrite Hscan. simpl. exact IH.
Qed.

End AlertScan.

(** C2.  Every analysis carries at most 3 tags counted as bullish and at
    most 3 counted as bearish, none of the three Bollinger tags being
    counted on either side; so no analysis has confidence HIGH, the alert
    scan over the results of [analyzeAllSymbols] adds no line to the
    message and leaves [hasAlert] false, and [periodicAnalysis] sends
    nothing, whatever the numbers, the price source and the sessions. *)
Theorem high_confidence_unreachable {num : Type} `{JsNumber num} :
  (forall (fetch : string -> string -> Rand num (option (list num)))
          (symbol timeframe : string) (r : Rng num),
      let a := fst (analyzeSymbolWith fetch symbol timeframe r) in
      bullishCount (tags a) <= 3 /\ bearishCount (tags a) <= 3 /\
      confidence a <> Some HIGH) /\
  (is_bullish "RESISTANCE_TOUCH" = false /\ is_bearish "RESISTANCE_TOUCH" = false /\
   is_bullish "SUPPORT_TOUCH" = false /\ is_bearish "SUPPORT_TOUCH" = false /\
   is_bullish "WITHIN_BANDS" = false /\ is_bearish "WITHIN_BANDS" = false) /\
  (forall r : Rng num,
      scanForAlerts (fst (analyzeAllSymbols r)) = Some (alertHeader, false)) /\
  (forall (sessions : list (string * Session)) (r : Rng num),
      fst (periodicAnalysis sessions r) = []).
Proof.
  assert (Hscan : forall r : Rng num,
             scanForAlerts (fst (analyzeAllSymbols r)) = Some (alertHeader, false)).
  { intros r. unfold scanForAlerts, analyzeAllSymbols.
    apply scan_symbols_calm.
    - apply analyze_symbols_calm. constructor.
    - intros key Hin. apply analyze_symbols_present. now left. }
  split; [|split; [|split]].
  - intros fetch symbol timeframe r. unfold analyzeSymbolWith, bind, ret.
    destruct (fetch symbol timeframe r) as [data r'].
    cbv beta iota zeta delta [fst].
    apply analyzeFetched_counts.
  - repeat split; reflexivity.
  - exact Hscan.
  - intros sessions r. unfold periodicAnalysis, bind, ret.
    specialize (Hscan r).
    destruct (analyzeAllSymbols r) as [results r']. cbn [fst] in *.
    now apply notify_quiet.
Qed.

(** ** Aggregation over timeframes *)

Lemma assign_fresh {V : Type} key (v : V) obj :
  ~ In key (map fst obj) -> assign key v obj = obj ++ [(key, v)].
Proof.
  induction obj as [|[k x] rest IH]; simpl; intros Hfresh; [reflexivity|].
  destruct (String.eqb_spec k key) as [->|Hne].
  - exfalso. apply Hfresh. now left.
  - f_equal. apply IH. intros Hin. apply Hfresh. now right.
Qed.

Lemma analyze_timeframes_keys {num : Type} `{JsNumber num} symbol :
  forall timeframes obj (r : Rng num),
    NoDup (map fst obj ++ timeframes) ->
    map fst (fst (analyze_timeframes symbol timeframes obj r)) = map fst obj ++ timeframes.
Proof.
  induction timeframes as [|tf rest IH]; intros obj r Hnd.
  - cbn [analyze_timeframes ret fst]. now rewrite app_nil_r.
  - cbn [analyze_timeframes]. unfold bind.
    destruct (analyzeSymbol symbol tf r) as [a r'].
    assert (Hfresh : ~ In tf (map fst obj)).
    { intros Hin. apply NoDup_remove_2 in Hnd. apply Hnd.
      apply in_or_app. now left. }
    rewrite (assign_fresh _ _ _ Hfresh).
    rewrite IH; rewrite map_app; simpl; rewrite <- app_assoc; simpl; [reflexivity|exact Hnd].
Qed.

Lemma TIMEFRAMES_NoDup : NoDup TIMEFRAMES.
Proof.
  unfold TIMEFRAMES.
  repeat (constructor; [simpl; intros Hin;
                        repeat (destruct Hin as [Hin|Hin]; [discriminate Hin|]);
                        exact Hin|]).
  constructor.
Qed.

(** C5.  The aggregated decision of the [/signals] handler is the vote
    with strictly the most voices among BUY, SELL and HOLD, and HOLD
    whenever BUY or SELL does not strictly lead (every tie gives HOLD):
    [BUY,BUY,HOLD] gives BUY and [BUY,SELL,HOLD] gives HOLD.  The valid
    count it reports is the number of analyses whose decision is not
    INSUFFICIENT_DATA, and the total is the number of timeframes, which
    is the number of analyses [analyzeAllSymbols] stores for a symbol. *)
Theorem aggregate_majority_vote :
  (forall decisions : list Decision,
      let buy := countOf BUY decisions in
      let sell := countOf SELL decisions in
      let hold := countOf HOLD decisions in
      (aggregatedDecision decisions = BUY <-> buy > sell /\ buy > hold) /\
      (aggregatedDecision decisions = SELL <-> sell > buy /\ sell > hold) /\
      (aggregatedDecision decisions = HOLD <->
         ~ (buy > sell /\ buy > hold) /\ ~ (sell > buy /\ sell > hold))) /\
  aggregatedDecision [BUY; BUY; HOLD] = BUY /\
  aggregatedDecision [BUY; SELL; HOLD] = HOLD /\
  (forall (num : Type) (symbolAnalyses : list (string * Analysis num)),
      aggregate symbolAnalyses
      = (aggregatedDecision (map (fun e => decision (snd e)) symbolAnalyses),
         length (filter (fun e => negb (Decision_eqb (decision (snd e)) INSUFFICIENT_DATA))
                   symbolAnalyses),
         8)) /\
  (forall (num : Type) (N : JsNumber num) (symbol : string) (r : Rng num),
      length (fst (analyze_timeframes symbol TIMEFRAMES [] r)) = 8).
Proof.
  split; [|split; [|split; [|split]]].
  - intros decisions buy sell hold. unfold aggregatedDecision.
    fold buy. fold sell. fold hold.
    destruct (Nat.ltb_spec sell buy), (Nat.ltb_spec hold buy),
             (Nat.ltb_spec buy sell), (Nat.ltb_spec hold sell);
      simpl; repeat split; intros; try discriminate; try lia; try reflexivity.
  - reflexivity.
  - reflexivity.
  - intros num symbolAnalyses. unfold aggregate, validCount.
    f_equal. f_equal.
    induction symbolAnalyses as [|e rest IH]; simpl; [reflexivity|].
    destruct (negb (Decision_eqb (decision (snd e)) INSUFFICIENT_DATA)); simpl; congruence.
  - intros num N symbol r.
    rewrite <- (length_map fst).
    rewrite analyze_timeframes_keys by (simpl; apply TIMEFRAMES_NoDup).
    reflexivity.
Qed.

(** The lead is relative: BUY wins with two voices out of four, and with
    one voice when the other timeframes lack data. *)
Example aggregatedDecision_relative_lead :
  aggregatedDecision [BUY; BUY; SELL; HOLD] = BUY /\
  aggregatedDecision [BUY; INSUFFICIENT_DATA; INSUFFICIENT_DATA] = BUY /\
  aggregatedDecision [BUY; BUY; SELL; SELL; HOLD] = HOLD.
Proof. repeat split; reflexivity. Qed.

(** ** RSI reads the oldest samples only *)

Section Window.
Context {num : Type} `{JsNumber num}.

Lemma get_firstn (s : list num) n i : i < n -> get (firstn n s) i = get s i.
Proof.
  unfold get. revert n i. induction s as [|x s IH]; intros n i Hi.
  - now rewrite firstn_nil.
  - destruct n as [|n]; [lia|]. destruct i as [|i]; simpl; [reflexivity|].
    apply IH. lia.
Qed.

(** C6.  Two series that agree on their first [period + 1] elements have
    the same RSI; the loop sums the deltas at indices 1 to [period] and
    reads nothing beyond index [period]. *)
Theorem calculateRSI_oldest_window :
  forall (s1 s2 : list num) (period : nat),
    period + 1 <= length s1 ->
    period + 1 <= length s2 ->
    firstn (period + 1) s1 = firstn (period + 1) s2 ->
    calculateRSI s1 period = calculateRSI s2 period /\
    calculateRSI s1 period = calculateRSI (firstn (period + 1) s1) period.
Proof.
  assert (Hcut : forall (s : list num) period,
             period + 1 <= length s ->
             calculateRSI s period = calculateRSI (firstn (period + 1) s) period).
  { intros s period Hlen. unfold calculateRSI.
    rewrite length_firstn, Nat.min_l by exact Hlen.
    destruct (Nat.ltb_spec (length s) (period + 1)) as [Hlt|_]; [lia|].
    rewrite Nat.ltb_irrefl.
    rewrite (for_loop_ext (rsi_step s) (rsi_step (firstn (period + 1) s)));
      [reflexivity|].
    intros j [gains losses] Hj. unfold rsi_step.
    rewrite !get_firstn by lia. reflexivity. }
  intros s1 s2 period H1 H2 Hsame. split.
  - rewrite (Hcut s1), (Hcut s2) by assumption. now rewrite Hsame.
  - now apply Hcut.
Qed.

End Window.

(** ** EMA runs over the whole series *)

Section EMA.
Context {num : Type} `{JsNumber num}.
Local Open Scope js_scope.

(** C7.  With at least [period] elements, [calculateEMA] returns the last
    term, at index [length - 1], of the recurrence seeded with the first
    element and run with [k = 2 / (period + 1)] over every index of the
    series; with fewer elements it returns [null]. *)
Theorem calculateEMA_recurrence :
  forall (series : list num) (period : nat),
    (period <= length series ->
     calculateEMA series period
     = Some (ema_recurrence ($2 / ($period + $1)) series (length series - 1))) /\
    (length series < period -> calculateEMA series period = None).
Proof.
  intros series period. unfold calculateEMA. split; intros Hlen.
  - destruct (Nat.ltb_spec (length series) period) as [Hlt|_]; [lia|].
    f_equal. set (k := $2 / ($period + $1)).
    destruct (length series) as [|n] eqn:En; [reflexivity|].
    apply (for_loop_ind (fun j ema => ema = ema_recurrence k series (j - 1)%nat)).
    + lia.
    + reflexivity.
    + intros j ema Hj ->. replace (S j - 1)%nat with j by lia.
      destruct j as [|j]; [lia|]. simpl. now rewrite Nat.sub_0_r.
  - destruct (Nat.ltb_spec (length series) period); [reflexivity | lia].
Qed.

End EMA.

(** ** Swings *)

Section SwingClaims.
Context {num : Type} `{JsNumber num}.

Lemma strictly_increasing_get (prices : list num) :
  strictly_increasing prices = true ->
  forall k, k + 1 < length prices -> nltb (get prices k) (get prices (k + 1)) = true.
Proof.
  unfold get. induction prices as [|x [|y rest] IH]; simpl; intros Hinc k Hk; try lia.
  apply andb_prop in Hinc. destruct Hinc as [Hxy Hrest].
  destruct k as [|k]; [exact Hxy|].
  apply (IH Hrest k). simpl. lia.
Qed.

Lemma strictly_decreasing_get (prices : list num) :
  strictly_decreasing prices = true ->
  forall k, k + 1 < length prices -> nltb (get prices (k + 1)) (get prices k) = true.
Proof.
  unfold get. induction prices as [|x [|y rest] IH]; simpl; intros Hdec k Hk; try lia.
  apply andb_prop in Hdec. destruct Hdec as [Hxy Hrest].
  destruct k as [|k]; [exact Hxy|].
  apply (IH Hrest k). simpl. lia.
Qed.

(** What the two flags say once the window has been scanned. *)
Lemma window_flags_sound (prices : list num) windowSize i :
  (fst (window_flags prices windowSize i) = true ->
   forall j, i - windowSize <= j < i + windowSize + 1 -> j <> i ->
             nleb (get prices i) (get prices j) = false) /\
  (snd (window_flags prices windowSize i) = true ->
   forall j, i - windowSize <= j < i + windowSize + 1 -> j <> i ->
             nleb (get prices j) (get prices i) = false).
Proof.
  unfold window_flags.
  apply (for_loop_ind
           (fun hi (flags : bool * bool) =>
              (fst flags = true ->
               forall j, i - windowSize <= j < hi -> j <> i ->
                         nleb (get prices i) (get prices j) = false) /\
              (snd flags = true ->
               forall j, i - windowSize <= j < hi -> j <> i ->
                         nleb (get prices j) (get prices i) = false))).
  - lia.
  - split; intros _ j Hj; lia.
  - intros k [isHigh isLow] Hk [IHh IHl]. unfold window_step.
    destruct (Nat.eqb_spec k i) as [->|Hne].
    + split; intros Hflag j Hj Hji; [apply IHh | apply IHl]; auto; lia.
    + destruct (nleb (get prices i) (get prices k)) eqn:Eh,
               (nleb (get prices k) (get prices i)) eqn:El;
        simpl in *; split; intros Hflag j Hj Hji; try discriminate;
        (destruct (Nat.eq_dec j k) as [->|Hjk];
         [assumption | (apply IHh || apply IHl); auto; lia]).
Qed.

Lemma findSwings_sound (prices : list num) windowSize :
  swings_sound prices windowSize (length prices - windowSize)
    (findSwings prices windowSize).
Proof.
  unfold findSwings, for_loop.
  destruct (Nat.le_gt_cases windowSize (length prices - windowSize)) as [Hle|Hgt].
  - apply (for_loop_ind (swings_sound prices windowSize)); [exact Hle | |].
    + intros sw [].
    + intros i swings Hi IH. unfold swing_step.
      destruct (window_flags prices windowSize i) as [isHigh isLow] eqn:E.
      assert (Hweak : swings_sound prices windowSize (S i) swings).
      { intros sw Hin. destruct (IH sw Hin) as (? & ? & ?). repeat split; auto; lia. }
      destruct isHigh; [|destruct isLow]; try exact Hweak;
        intros sw Hin; apply in_app_or in Hin; destruct Hin as [Hin|[<-|[]]];
        try (apply Hweak; exact Hin); simpl; rewrite E; simpl;
        repeat split; auto; lia.
  - replace (length prices - windowSize - windowSize) with 0 by lia.
    intros sw [].
Qed.

End SwingClaims.

Lemma SFcompare_Eq_sym (x y : SpecFloat.spec_float) :
  SpecFloat.SFcompare x y = Some Eq -> SpecFloat.SFcompare y x = Some Eq.
Proof.
  destruct x as [sx|sx| |sx mx ex], y as [sy|sy| |sy my ey]; simpl;
    try discriminate; try reflexivity;
    try (destruct sx; discriminate); try (destruct sy; discriminate).
  - destruct sx, sy; (discriminate || reflexivity).
  - change (PosDef.Pos.compare_cont Eq mx my) with (Pos.compare mx my).
    change (PosDef.Pos.compare_cont Eq my mx) with (Pos.compare my mx).
    rewrite (Z.compare_antisym ex ey), (Pos.compare_antisym mx my).
    destruct sx, sy; try discriminate;
      destruct (Z.compare ex ey); simpl; try discriminate;
      destruct (Pos.compare mx my); simpl; (discriminate || reflexivity).
Qed.

#[export] Instance binary64_order : OrderLaws float.
Proof.
  split; intros x y; cbv [nltb nleb neqb binary64].
  - rewrite FloatAxioms.ltb_spec, FloatAxioms.leb_spec.
    unfold SpecFloat.SFltb, SpecFloat.SFleb.
    destruct (SpecFloat.SFcompare (Prim2SF x) (Prim2SF y)) as [[| |]|];
      (discriminate || reflexivity).
  - rewrite FloatAxioms.eqb_spec, !FloatAxioms.leb_spec.
    unfold SpecFloat.SFeqb, SpecFloat.SFleb.
    destruct (SpecFloat.SFcompare (Prim2SF x) (Prim2SF y)) as [[| |]|] eqn:E;
      try discriminate.
    intros _. now rewrite (SFcompare_Eq_sym _ _ E).
Qed.

#[export] Instance rational_order : OrderLaws Qc.
Proof.
  split; intros x y; cbv [nltb nleb neqb rational].
  - intros Hlt. apply negb_true_iff in Hlt.
    apply Qle_bool_iff. destruct (Qlt_le_dec x y) as [Hxy|Hyx].
    + now apply Qlt_le_weak.
    + apply Qle_bool_iff in Hyx. congruence.
  - intros Heq. apply Qeq_bool_iff in Heq.
    split; apply Qle_bool_iff; rewrite Heq; apply Qle_refl.
Qed.

Section SwingTheorems.
Context {num : Type} `{OrderLaws num}.

Lemma monotonic_no_flags (prices : list num) windowSize i :
  1 <= windowSize ->
  windowSize <= i < length prices - windowSize ->
  strictly_increasing prices = true \/ strictly_decreasing prices = true ->
  window_flags prices windowSize i = (false, false).
Proof.
  intros Hw Hi Hmono.
  destruct (window_flags_sound prices windowSize i) as [Hhigh Hlow].
  destruct (window_flags prices windowSize i) as [isHigh isLow]. simpl in *.
  assert (Hprev : S (i - 1) = i) by lia.
  destruct Hmono as [Hinc|Hdec].
  - pose proof (strictly_increasing_get prices Hinc) as Hget.
    f_equal.
    + destruct isHigh; [|reflexivity].
      rewrite <- (Hhigh eq_refl (i + 1)) by lia.
      symmetry. apply nltb_nleb, Hget. lia.
    + destruct isLow; [|reflexivity].
      rewrite <- (Hlow eq_refl (i - 1)) by lia.
      symmetry. apply nltb_nleb.
      specialize (Hget (i - 1)). replace (i - 1 + 1) with i in Hget by lia.
      apply Hget. lia.
  - pose proof (strictly_decreasing_get prices Hdec) as Hget.
    f_equal.
    + destruct isHigh; [|reflexivity].
      rewrite <- (Hhigh eq_refl (i - 1)) by lia.
      symmetry. apply nltb_nleb.
      specialize (Hget (i - 1)). replace (i - 1 + 1) with i in Hget by lia.
      apply Hget. lia.
    + destruct isLow; [|reflexivity].
      rewrite <- (Hlow eq_refl (i + 1)) by lia.
      symmetry. apply nltb_nleb, Hget. lia.
Qed.

(** C9 (amended).  [findSwings] never reports the same index both as a
    high and as a low; an index one of whose window neighbours has an
    equal value is not reported at all; and with a window size of at
    least 1, a strictly increasing or strictly decreasing series of
    length above [2 * windowSize + 1] has no swing. *)
Theorem findSwings_exclusive :
  forall (prices : list num) (windowSize : nat),
    (forall i p q,
        ~ (In {| swing_type := high; swing_index := i; swing_price := p |}
              (findSwings prices windowSize) /\
           In {| swing_type := low; swing_index := i; swing_price := q |}
              (findSwings prices windowSize))) /\
    (forall i j,
        i - windowSize <= j <= i + windowSize -> j <> i ->
        neqb (get prices j) (get prices i) = true ->
        forall sw, In sw (findSwings prices windowSize) -> swing_index sw <> i) /\
    (1 <= windowSize ->
     length prices > 2 * windowSize + 1 ->
     strictly_increasing prices = true \/ strictly_decreasing prices = true ->
     findSwings prices windowSize = []).
Proof.
  intros prices windowSize.
  pose proof (findSwings_sound prices windowSize) as Hsound.
  split; [|split].
  - intros i p q [Hh Hl].
    destruct (Hsound _ Hh) as (_ & _ & Hfh).
    destruct (Hsound _ Hl) as (_ & _ & Hfl & _).
    simpl in *. congruence.
  - intros i j Hj Hji Htie sw Hin <-.
    destruct (Hsound _ Hin) as (_ & _ & Hflags).
    destruct (window_flags_sound prices windowSize (swing_index sw)) as [Hhigh Hlow].
    destruct (neqb_nleb _ _ Htie) as [Hle Hge].
    destruct (swing_type sw).
    + rewrite (Hhigh Hflags j) in Hge by (auto; lia). discriminate.
    + destruct Hflags as [_ Hflags].
      rewrite (Hlow Hflags j) in Hle by (auto; lia). discriminate.
  - intros Hw Hlen Hmono. unfold findSwings.
    apply (for_loop_ind (fun _ (swings : list (Swing num)) => swings = [])).
    + lia.
    + reflexivity.
    + intros i swings Hi ->. unfold swing_step.
      now rewrite (monotonic_no_flags prices windowSize i Hw Hi Hmono).
Qed.

End SwingTheorems.

(** C9, as stated, fails at window size 0: the window of an index then
    holds no other value, so every index is reported as a high, also on
    the strictly increasing series [1, 2], whose length is above
    [2 * 0 + 1]. *)
Lemma findSwings_window0_counterexample :
  strictly_increasing (series [1; 2] : list float) = true /\
  length (series [1; 2] : list float) > 2 * 0 + 1 /\
  findSwings (series [1; 2] : list float) 0
  = [ {| swing_type := high; swing_index := 0; swing_price := of_nat 1 |};
      {| swing_type := high; swing_index := 1; swing_price := of_nat 2 |} ].
Proof.
  split; [vm_compute; reflexivity|]. split; [simpl; lia|].
  vm_compute. reflexivity.
Qed.

Lemma findSwings_exclusive_witness :
  findSwings (series [1; 2; 3; 4; 5] : list float) 1 = [].
Proof.
  apply (findSwings_exclusive (series [1; 2; 3; 4; 5] : list float) 1).
  - lia.
  - simpl. lia.
  - left. vm_compute. reflexivity.
Defined.

(** ** Exact arithmetic: the rational reading *)




















(** ** Bollinger bands over the rationals *)












(** ** Binary64: where the arithmetic of the program departs *)



(** The scenarios of the design document, on binary64. *)
Example rsi_ascending_binary64 :
  calculateRSI (series (seq 1 20) : list float) 14 = Some (of_nat 100) /\
  calculateRSI (series (rev (seq 1 20)) : list float) 14 = Some (of_nat 0) /\
  calculateRSI (repeat (of_nat 5 : float) 100) 14 = Some (of_nat 100).
Proof. repeat split; vm_compute; reflexivity. Qed.

Example bands_identical_five_binary64 :
  calculateBollingerBands (repeat (of_nat 5 : float) 100) 20 (of_nat 2)
  = Some {| upper := of_nat 5; middle := Some (of_nat 5); lower := of_nat 5 |}.
Proof. vm_compute. reflexivity. Qed.

(** The whole history weighs on the EMA: two series with the same last
    [period] elements and different EMAs. *)
Example calculateEMA_full_history :
  skipn 1 (series [100; 1; 2] : list float) = skipn 1 (series [0; 1; 2]) /\
  match calculateEMA (series [100; 1; 2] : list float) 2,
        calculateEMA (series [0; 1; 2] : list float) 2 with
  | Some a, Some b => neqb a b
  | _, _ => true
  end = false.
Proof. split; vm_compute; reflexivity. Qed.

(** ** The theorems at concrete inputs *)

Lemma analyzeSymbol_decision_rule_witness :
  let a := fst (analyzeSymbolWith (fixedSource (series (seq 1 60) : list float))
                  "BTC" "1d" rng_half) in
  decision a = HOLD <->
  ~ bullishCount (tags a) > bearishCount (tags a) + 1 /\
  ~ bearishCount (tags a) > bullishCount (tags a) + 1.
Proof.
  cbv zeta.
  apply (analyzeSymbol_decision_rule
           (fixedSource (series (seq 1 60) : list float)) "BTC" "1d" rng_half
           (series (seq 1 60))).
  - reflexivity.
  - vm_compute. lia.
Defined.

Lemma analyzeSymbol_deterministic_witness :
  fst (analyzeSymbolWith mockSource "BTC" "1d" rng_half)
  = fst (analyzeSymbolWith mockSource "BTC" "1d" rng_half_then_quarter).
Proof.
  apply (analyzeSymbol_deterministic mockSource "BTC" "1d" rng_half rng_half_then_quarter).
  vm_compute. reflexivity.
Defined.

Lemma analyzeSymbol_insufficient_data_witness :
  analyzeSymbolWith (fixedSource (series (seq 1 19) : list float)) "BTC" "1d" rng_half
  = (Insufficient "BTC" "1d" "Not enough historical data", rng_half).
Proof.
  apply (analyzeSymbol_insufficient_data
           (fixedSource (series (seq 1 19) : list float)) "BTC" "1d" rng_half).
  right. exists (series (seq 1 19)). split; [reflexivity | vm_compute; lia].
Defined.

Lemma calculateRSI_oldest_window_witness :
  calculateRSI (series (seq 1 20) : list float) 14
  = calculateRSI (series (seq 1 15 ++ [100; 3; 7]) : list float) 14.
Proof.
  apply (calculateRSI_oldest_window
           (series (seq 1 20) : list float) (series (seq 1 15 ++ [100; 3; 7])) 14).
  - vm_compute. lia.
  - vm_compute. lia.
  - vm_compute. reflexivity.
Defined.



(** * Further properties of the code *)

(** ** Moving average *)

(** X1.  [calculateMA] reads the last [period] elements only: two series
    with at least [period >= 1] elements and the same last [period]
    elements have the same average, which is never [null]. *)
Theorem calculateMA_last_window {num : Type} `{JsNumber num} :
  forall (s1 s2 : list num) (period : nat),
    1 <= period ->
    period <= length s1 ->
    period <= length s2 ->
    skipn (length s1 - period) s1 = skipn (length s2 - period) s2 ->
    calculateMA s1 period = calculateMA s2 period /\
    calculateMA s1 period <> None.
Proof.
  intros s1 s2 period Hp H1 H2 Hsame. unfold calculateMA, slice_last.
  destruct (Nat.ltb_spec (length s1) period) as [Hlt|_]; [lia|].
  destruct (Nat.ltb_spec (length s2) period) as [Hlt|_]; [lia|].
  destruct (Nat.eqb_spec period 0) as [H0|_]; [lia|].
  rewrite Hsame. split; [reflexivity | discriminate].
Qed.

(** ** Swings *)

Lemma StronglySorted_snoc (l : list nat) (x : nat) :
  StronglySorted lt l -> Forall (fun y => y < x) l -> StronglySorted lt (l ++ [x]).
Proof.
  induction 1 as [|y l Hl IH Hy]; intros Hall; simpl.
  - constructor; constructor.
  - inversion Hall; subst. constructor; [now apply IH|].
    apply Forall_app. split; [exact Hy | constructor; [assumption | constructor]].
Qed.

(** X2.  The swings come in strictly ascending index order, so no index
    is reported twice; there are at most [length - 2 * windowSize] of
    them, each at an index that has a full window on both sides and with
    the price found at that index. *)
Theorem findSwings_ascending {num : Type} `{JsNumber num} :
  forall (prices : list num) (windowSize : nat),
    StronglySorted lt (map (@swing_index num) (findSwings prices windowSize)) /\
    length (findSwings prices windowSize) <= length prices - 2 * windowSize /\
    (forall sw, In sw (findSwings prices windowSize) ->
                windowSize <= swing_index sw /\
                swing_index sw + windowSize < length prices /\
                swing_price sw = get prices (swing_index sw)).
Proof.
  intros prices windowSize.
  split; [|split].
  - destruct (Nat.le_gt_cases windowSize (length prices - windowSize)) as [Hle|Hgt].
    + assert (Hinv : StronglySorted lt (map (@swing_index num) (findSwings prices windowSize)) /\
                     Forall (fun y => y < length prices - windowSize)
                       (map (@swing_index num) (findSwings prices windowSize))).
      { unfold findSwings.
        apply (for_loop_ind
                 (fun hi (swings : list (Swing num)) =>
                    StronglySorted lt (map (@swing_index num) swings) /\
                    Forall (fun y => y < hi) (map (@swing_index num) swings)));
          [exact Hle | split; constructor |].
        intros i swings Hi [Hsorted Hbelow].
        assert (Hweak : Forall (fun y => y < S i) (map (@swing_index num) swings)).
        { eapply Forall_impl; [|exact Hbelow]. simpl. intros; lia. }
        unfold swing_step.
        destruct (window_flags prices windowSize i) as [[|] [|]];
          try (split; assumption);
          rewrite map_app; cbn [map swing_index];
          (split; [apply StronglySorted_snoc; assumption
                  | apply Forall_app; split; [exact Hweak | constructor; [lia | constructor]]]). }
      exact (proj1 Hinv).
    + unfold findSwings, for_loop.
      replace (length prices - windowSize - windowSize) with 0 by lia.
      constructor.
  - destruct (Nat.le_gt_cases windowSize (length prices - windowSize)) as [Hle|Hgt].
    + replace (length prices - 2 * windowSize)
        with (length prices - windowSize - windowSize) by lia.
      unfold findSwings.
      apply (for_loop_ind
               (fun hi (swings : list (Swing num)) => length swings <= hi - windowSize));
        [exact Hle | simpl; lia |].
      intros i swings Hi Hlen. unfold swing_step.
      destruct (window_flags prices windowSize i) as [[|] [|]];
        rewrite ?length_app; cbn [length]; lia.
    + unfold findSwings, for_loop.
      replace (length prices - windowSize - windowSize) with 0 by lia.
      simpl. lia.
  - intros sw Hin.
    destruct (findSwings_sound prices windowSize sw Hin) as (Hrange & Hprice & _).
    repeat split; [lia | lia | exact Hprice].
Qed.

Lemma window_flags_complete {num : Type} `{JsNumber num}
    (prices : list num) windowSize i :
  ((forall j, i - windowSize <= j < i + windowSize + 1 -> j <> i ->
              nleb (get prices i) (get prices j) = false) ->
   fst (window_flags prices windowSize i) = true) /\
  ((forall j, i - windowSize <= j < i + windowSize + 1 -> j <> i ->
              nleb (get prices j) (get prices i) = false) ->
   snd (window_flags prices windowSize i) = true).
Proof.
  unfold window_flags.
  apply (for_loop_ind
           (fun hi (flags : bool * bool) =>
              ((forall j, i - windowSize <= j < hi -> j <> i ->
                          nleb (get prices i) (get prices j) = false) ->
               fst flags = true) /\
              ((forall j, i - windowSize <= j < hi -> j <> i ->
                          nleb (get prices j) (get prices i) = false) ->
               snd flags = true))).
  - lia.
  - split; reflexivity.
  - intros k [isHigh isLow] Hk [IHh IHl]. cbn [fst snd] in *. unfold window_step.
    destruct (Nat.eqb_spec k i) as [->|Hne]; cbn [fst snd].
    + split; intros Hall; [apply IHh | apply IHl]; intros j Hj Hji; apply Hall; lia.
    + split; intros Hall.
      * rewrite (Hall k) by lia. apply IHh. intros j Hj Hji. apply Hall; lia.
      * rewrite (Hall k) by lia.
        destruct (nleb (get prices i) (get prices k)); cbn [snd];
          apply IHl; intros j Hj Hji; apply Hall; lia.
Qed.

Lemma findSwings_complete {num : Type} `{JsNumber num} (prices : list num) windowSize :
  forall i, windowSize <= i < length prices - windowSize ->
    (fst (window_flags prices windowSize i) = true ->
     In {| swing_type := high; swing_index := i; swing_price := get prices i |}
        (findSwings prices windowSize)) /\
    (fst (window_flags prices windowSize i) = false ->
     snd (window_flags prices windowSize i) = true ->
     In {| swing_type := low; swing_index := i; swing_price := get prices i |}
        (findSwings prices windowSize)).
Proof.
  intros i Hi.
  assert (Hle : windowSize <= length prices - windowSize) by lia.
  revert i Hi. unfold findSwings.
  apply (for_loop_ind
           (fun hi (swings : list (Swing num)) =>
              forall i, windowSize <= i < hi ->
                (fst (window_flags prices windowSize i) = true ->
                 In {| swing_type := high; swing_index := i; swing_price := get prices i |}
                    swings) /\
                (fst (window_flags prices windowSize i) = false ->
                 snd (window_flags prices windowSize i) = true ->
                 In {| swing_type := low; swing_index := i; swing_price := get prices i |}
                    swings)));
    [exact Hle | intros i Hi; lia |].
  intros k swings Hk IH i Hi.
  assert (Hmono : forall sw, In sw swings -> In sw (swing_step prices windowSize k swings)).
  { intros sw Hin. unfold swing_step.
    destruct (window_flags prices windowSize k) as [[|] [|]];
      try exact Hin; apply in_or_app; now left. }
  destruct (Nat.eq_dec i k) as [->|Hik].
  - unfold swing_step.
    destruct (window_flags prices windowSize k) as [[|] [|]]; cbn [fst snd];
      split; intros; try discriminate; apply in_or_app; right; now left.
  - destruct (IH i ltac:(lia)) as [IHh IHl].
    split; intros; apply Hmono; auto.
Qed.

(** X3.  What [findSwings] reports, exactly: an index with a full window
    on both sides is a high swing when no other value of its window is
    [>=] its own, and a low swing when that fails for some value while no
    other value of the window is [<=] its own. *)
Theorem findSwings_exact {num : Type} `{JsNumber num} :
  forall (prices : list num) (windowSize : nat) (sw : Swing num),
    In sw (findSwings prices windowSize) <->
    windowSize <= swing_index sw /\
    swing_index sw + windowSize < length prices /\
    swing_price sw = get prices (swing_index sw) /\
    let i := swing_index sw in
    let no_value_above :=
      forall j, i - windowSize <= j <= i + windowSize -> j <> i ->
                nleb (get prices i) (get prices j) = false in
    let no_value_below :=
      forall j, i - windowSize <= j <= i + windowSize -> j <> i ->
                nleb (get prices j) (get prices i) = false in
    match swing_type sw with
    | high => no_value_above
    | low => ~ no_value_above /\ no_value_below
    end.
Proof.
  intros prices windowSize sw. cbv zeta.
  destruct (window_flags_sound prices windowSize (swing_index sw)) as [Shigh Slow].
  destruct (window_flags_complete prices windowSize (swing_index sw)) as [Chigh Clow].
  split.
  - intros Hin.
    destruct (findSwings_sound prices windowSize sw Hin) as (Hrange & Hprice & Hflags).
    repeat split; try lia; try exact Hprice.
    destruct (swing_type sw).
    + intros j Hj Hji. apply Shigh; [exact Hflags | lia | exact Hji].
    + destruct Hflags as [Hnot Hlow]. split.
      * intros Hall. rewrite Chigh in Hnot; [discriminate|].
        intros j Hj Hji. apply Hall; [lia | exact Hji].
      * intros j Hj Hji. apply Slow; [exact Hlow | lia | exact Hji].
  - intros (Hlo & Hhi & Hprice & Hkind).
    destruct (findSwings_complete prices windowSize (swing_index sw) ltac:(lia))
      as [Ch Cl].
    destruct sw as [ty i p]. cbn [swing_type swing_index swing_price] in *. subst p.
    destruct ty.
    + apply Ch, Chigh. intros j Hj Hji. apply Hkind; [lia | exact Hji].
    + destruct Hkind as [Hnot Hlow]. apply Cl.
      * destruct (fst (window_flags prices windowSize i)) eqn:E; [|reflexivity].
        exfalso. apply Hnot. intros j Hj Hji. apply Shigh; [reflexivity | lia | exact Hji].
      * apply Clow. intros j Hj Hji. apply Hlow; [lia | exact Hji].
Qed.

(** ** Order blocks *)

Section OrderBlockProperties.
Context {num : Type} `{JsNumber num}.

Lemma block_step_inv (swings : list (Swing num)) st swing :
  In swing swings -> blocks_inv swings st -> blocks_inv swings (block_step st swing).
Proof.
  destruct st as [[orderBlocks currentHigh] currentLow].
  intros Hin (Hblocks & Hhigh & Hlow). unfold block_step.
  assert (Hnew : forall x : Swing num,
             Some swing = Some x -> In x swings /\ swing_type x = swing_type swing).
  { intros x E. injection E as <-. split; [assumption | reflexivity]. }
  destruct (swing_type swing) eqn:Et.
  - destruct currentHigh as [h|].
    + destruct (Hhigh h eq_refl) as [Hh Hth].
      destruct (nltb (swing_price h) (swing_price swing)) eqn:E.
      * split; [|split; [exact Hnew | exact Hlow]].
        apply Forall_app. split; [exact Hblocks|]. constructor; [|constructor].
        split; [reflexivity|]. split; [exact E|].
        exists h, swing. cbn [block_type block_high block_low]. repeat split; auto.
      * split; [exact Hblocks | split; [exact Hhigh | exact Hlow]].
    + split; [exact Hblocks | split; [exact Hnew | exact Hlow]].
  - destruct currentLow as [l|].
    + destruct (Hlow l eq_refl) as [Hl Htl].
      destruct (nltb (swing_price swing) (swing_price l)) eqn:E.
      * split; [|split; [exact Hhigh | exact Hnew]].
        apply Forall_app. split; [exact Hblocks|]. constructor; [|constructor].
        split; [reflexivity|]. split; [exact E|].
        exists l, swing. cbn [block_type block_high block_low]. repeat split; auto.
      * split; [exact Hblocks | split; [exact Hhigh | exact Hlow]].
    + split; [exact Hblocks | split; [exact Hhigh | exact Hnew]].
Qed.

Lemma fold_block_step_inv (swings : list (Swing num)) :
  forall l st,
    (forall x, In x l -> In x swings) ->
    blocks_inv swings st -> blocks_inv swings (fold_left block_step l st).
Proof.
  induction l as [|x l IH]; intros st Hsub Hinv; cbn [fold_left].
  - exact Hinv.
  - apply IH.
    + intros y Hy. apply Hsub. now right.
    + apply block_step_inv; [apply Hsub; now left | exact Hinv].
Qed.

(** X4.  Every order block is unconfirmed and is made of two swings of
    the input of one kind, the tracked one and the one that beats it; in
    both kinds its [high] field is strictly below its [low] field (a
    bullish block has the older, lower high as [high] and the new, higher
    high as [low]; a bearish block has the new, lower low as [high]). *)
Theorem identifyOrderBlocks_blocks :
  forall (swings : list (Swing num)) (b : OrderBlock num),
    In b (identifyOrderBlocks swings) ->
    confirmed b = false /\
    nltb (block_high b) (block_low b) = true /\
    exists tracked new,
      In tracked swings /\ In new swings /\
      match block_type b with
      | bullish =>
          swing_type tracked = high /\ swing_type new = high /\
          block_high b = swing_price tracked /\ block_low b = swing_price new
      | bearish =>
          swing_type tracked = low /\ swing_type new = low /\
          block_high b = swing_price new /\ block_low b = swing_price tracked
      end.
Proof.
  intros swings b Hin. unfold identifyOrderBlocks in Hin.
  assert (Hinv : blocks_inv swings (fold_left block_step swings ([], None, None))).
  { apply fold_block_step_inv; [auto|].
    split; [constructor | split; intros x E; discriminate E]. }
  destruct (fold_left block_step swings ([], None, None)) as [[blocks ch] cl].
  cbn [fst] in Hin. destruct Hinv as (Hblocks & _).
  rewrite Forall_forall in Hblocks. exact (Hblocks b Hin).
Qed.

Lemma fold_block_step_count :
  forall l st,
    length (fst (fst (fold_left block_step l st))) + tracked_count (fold_left block_step l st)
    <= length (fst (fst st)) + tracked_count st + length l /\
    (1 <= tracked_count st \/ 1 <= length l ->
     1 <= tracked_count (fold_left block_step l st)).
Proof.
  induction l as [|x l IH]; intros st; cbn [fold_left length].
  - split; [lia | intros [?|?]; lia].
  - destruct (IH (block_step st x)) as [IHle IHpos].
    assert (Hstep : length (fst (fst (block_step st x))) + tracked_count (block_step st x)
                    <= length (fst (fst st)) + tracked_count st + 1 /\
                    1 <= tracked_count (block_step st x)).
    { destruct st as [[orderBlocks currentHigh] currentLow]. unfold block_step.
      destruct (swing_type x), currentHigh as [h|], currentLow as [l'|];
        repeat match goal with
               | |- context [if ?c then _ else _] => destruct c
               end;
        cbn [fst tracked_count]; rewrite ?length_app; cbn [length]; lia. }
    split; [lia | intros _; apply IHpos; lia].
Qed.

(** X5.  There are fewer order blocks than swings: no swings or a single
    swing give no block, and in general at most [length swings - 1]. *)
Theorem identifyOrderBlocks_count :
  forall swings : list (Swing num),
    length (identifyOrderBlocks swings) <= length swings - 1.
Proof.
  intros swings. unfold identifyOrderBlocks.
  destruct swings as [|x l]; [cbn [fold_left fst length]; lia|].
  destruct (fold_block_step_count (x :: l) ([], None, None)) as [Hle Hpos].
  assert (Hone : 1 <= tracked_count (fold_left block_step (x :: l) ([], None, None))).
  { apply Hpos. right. cbn [length]. lia. }
  change (length (fst (fst (@nil (OrderBlock num), @None (Swing num), @None (Swing num)))))
    with 0 in Hle.
  change (tracked_count (@nil (OrderBlock num), @None (Swing num), @None (Swing num)))
    with 0 in Hle.
  lia.
Qed.

End OrderBlockProperties.

(** ** The mock price source *)

Lemma mock_loop_rng {num : Type} `{JsNumber num} :
  forall n currentPrice mockData (r : Rng num),
    snd (mock_loop n currentPrice mockData r)
    = {| draws := draws r; cursor := cursor r + n |}.
Proof.
  induction n as [|n IH]; intros currentPrice mockData r.
  - cbn [mock_loop ret snd]. destruct r as [d c]. cbn [draws cursor].
    now rewrite Nat.add_0_r.
  - cbn [mock_loop]. unfold bind, random. rewrite IH. cbn [draws cursor].
    f_equal. lia.
Qed.

(** X6.  Whatever the symbol, the timeframe and the generator,
    [fetchHistoricalData] returns exactly 100 prices and takes exactly 101
    numbers from [Math.random], one for the price level and one per
    price. *)
Theorem fetchHistoricalData_shape {num : Type} `{JsNumber num} :
  forall (symbol timeframe : string) (r : Rng num),
    length (fst (fetchHistoricalData symbol timeframe r)) = 100 /\
    snd (fetchHistoricalData symbol timeframe r)
    = {| draws := draws r; cursor := cursor r + 101 |}.
Proof.
  intros symbol timeframe r. unfold fetchHistoricalData, bind, random.
  split.
  - rewrite mock_loop_length. reflexivity.
  - rewrite mock_loop_rng. cbn [draws cursor]. f_equal. lia.
Qed.

(** ** The full scan *)

Section FullScan.
Context {num : Type} `{JsNumber num}.

Lemma analyzeSymbol_run symbol timeframe (r : Rng num) :
  fst (analyzeSymbol symbol timeframe r)
  = analyzeFetched symbol timeframe (Some (fst (fetchHistoricalData symbol timeframe r))) /\
  snd (analyzeSymbol symbol timeframe r) = snd (fetchHistoricalData symbol timeframe r).
Proof.
  rewrite analyzeSymbol_unfold. unfold analyzeSymbolWith, mockSource, bind, ret.
  set (x := fetchHistoricalData symbol timeframe r).
  destruct x as [mockData r']. split; reflexivity.
Qed.

Lemma analyzeSymbol_decided symbol timeframe (r : Rng num) :
  decided (fst (analyzeSymbol symbol timeframe r)).
Proof.
  destruct (analyzeSymbol_run symbol timeframe r) as [-> _].
  destruct (fetchHistoricalData_shape symbol timeframe r) as [Hlen _].
  set (prices := fst (fetchHistoricalData symbol timeframe r)) in *.
  destruct (analyzeFetched_enough symbol timeframe prices ltac:(lia)) as (Hd & _).
  unfold decided. rewrite Hd. unfold decide.
  destruct (_ <? _); [discriminate|]. destruct (_ <? _); discriminate.
Qed.

Lemma analyzeSymbol_cursor symbol timeframe (r : Rng num) :
  snd (analyzeSymbol symbol timeframe r)
  = {| draws := draws r; cursor := cursor r + 101 |}.
Proof.
  destruct (analyzeSymbol_run symbol timeframe r) as [_ ->].
  apply fetchHistoricalData_shape.
Qed.

Lemma analyze_timeframes_run symbol :
  forall timeframes obj (r : Rng num),
    (Forall (fun e => decided (snd e)) obj ->
     Forall (fun e => decided (snd e)) (fst (analyze_timeframes symbol timeframes obj r))) /\
    snd (analyze_timeframes symbol timeframes obj r)
    = {| draws := draws r; cursor := cursor r + 101 * length timeframes |}.
Proof.
  induction timeframes as [|tf rest IH]; intros obj r.
  - cbn [analyze_timeframes ret fst snd length]. split; [auto|].
    destruct r as [d c]. cbn [draws cursor]. f_equal. lia.
  - cbn [analyze_timeframes]. unfold bind.
    pose proof (analyzeSymbol_decided symbol tf r) as Ha.
    pose proof (analyzeSymbol_cursor symbol tf r) as Hr.
    destruct (analyzeSymbol symbol tf r) as [a r']. cbn [fst snd] in Ha, Hr. subst r'.
    destruct (IH (assign tf a obj) {| draws := draws r; cursor := cursor r + 101 |})
      as [IHd IHr].
    split.
    + intros Hobj. apply IHd. now apply assign_Forall.
    + rewrite IHr. cbn [draws cursor length]. f_equal. lia.
Qed.

Lemma analyze_symbols_run :
  forall symbols results (r : Rng num),
    NoDup (map fst results ++ symbols) ->
    map fst (fst (analyze_symbols symbols results r)) = map fst results ++ symbols /\
    (Forall (fun e => full_object (snd e)) results ->
     Forall (fun e => full_object (snd e)) (fst (analyze_symbols symbols results r))) /\
    snd (analyze_symbols symbols results r)
    = {| draws := draws r; cursor := cursor r + 101 * length TIMEFRAMES * length symbols |}.
Proof.
  induction symbols as [|symbol rest IH]; intros results r Hnd.
  - cbn [analyze_symbols ret fst snd length]. rewrite app_nil_r.
    split; [reflexivity|]. split; [auto|].
    destruct r as [d c]. cbn [draws cursor]. f_equal. lia.
  - cbn [analyze_symbols]. unfold bind.
    pose proof (analyze_timeframes_keys symbol TIMEFRAMES [] r TIMEFRAMES_NoDup) as Hkeys.
    destruct (analyze_timeframes_run symbol TIMEFRAMES [] r) as [Hdec Hrng].
    specialize (Hdec (Forall_nil _)).
    destruct (analyze_timeframes symbol TIMEFRAMES [] r) as [obj r'].
    cbn [fst snd map app] in Hkeys, Hdec, Hrng. subst r'.
    assert (Hfresh : ~ In symbol (map fst results)).
    { intros Hin. apply NoDup_remove_2 in Hnd. apply Hnd. apply in_or_app. now left. }
    rewrite (assign_fresh symbol obj results Hfresh).
    destruct (IH (results ++ [(symbol, obj)])
                {| draws := draws r; cursor := cursor r + 101 * length TIMEFRAMES |})
      as (IHk & IHf & IHr).
    { rewrite map_app. cbn [map fst]. rewrite <- app_assoc. exact Hnd. }
    split; [|split].
    + rewrite IHk, map_app. cbn [map fst]. now rewrite <- app_assoc.
    + intros Hres. apply IHf. apply Forall_app. split; [exact Hres|].
      constructor; [|constructor]. split; assumption.
    + rewrite IHr. cbn [draws cursor length]. f_equal. lia.
Qed.

Lemma SYMBOLS_NoDup : NoDup SYMBOLS.
Proof.
  unfold SYMBOLS.
  repeat (constructor; [simpl; intros Hin;
                        repeat (destruct Hin as [Hin|Hin]; [discriminate Hin|]);
                        exact Hin|]).
  constructor.
Qed.

Lemma validCount_decided (decisions : list Decision) :
  Forall (fun d => d <> INSUFFICIENT_DATA) decisions ->
  validCount decisions = length decisions.
Proof.
  unfold validCount. induction 1 as [|d l Hd Hl IH]; [reflexivity|].
  cbn [filter]. destruct d; try contradiction; cbn [Decision_eqb negb length]; now rewrite IH.
Qed.

(** X7.  One run of [analyzeAllSymbols] analyses the 12 symbols in order,
    each over the 8 timeframes in order; no analysis lacks data, so the
    [/signals] handler reports 8 valid timeframes out of 8 for every
    symbol; and the run takes 12 * 8 * 101 numbers from [Math.random]. *)
Theorem analyzeAllSymbols_shape :
  forall r : Rng num,
    map fst (fst (analyzeAllSymbols r)) = SYMBOLS /\
    (forall symbol obj,
        In (symbol, obj) (fst (analyzeAllSymbols r)) ->
        map fst obj = TIMEFRAMES /\
        (forall timeframe a, In (timeframe, a) obj -> decision a <> INSUFFICIENT_DATA) /\
        snd (fst (aggregate obj)) = 8 /\ snd (aggregate obj) = 8) /\
    snd (analyzeAllSymbols r)
    = {| draws := draws r; cursor := cursor r + 12 * 8 * 101 |}.
Proof.
  intros r. unfold analyzeAllSymbols.
  destruct (analyze_symbols_run SYMBOLS [] r SYMBOLS_NoDup) as (Hk & Hf & Hr).
  specialize (Hf (Forall_nil _)).
  split; [exact Hk|]. split.
  - intros symbol obj Hin. rewrite Forall_forall in Hf.
    destruct (Hf (symbol, obj) Hin) as [Hkeys Hdec]. cbn [snd] in Hkeys, Hdec.
    split; [exact Hkeys|]. split.
    + intros timeframe a Ha. rewrite Forall_forall in Hdec. exact (Hdec (timeframe, a) Ha).
    + unfold aggregate. cbn [fst snd]. split; [|reflexivity].
      rewrite validCount_decided.
      * rewrite length_map, <- (length_map fst), Hkeys. reflexivity.
      * apply Forall_map. exact Hdec.
  - rewrite Hr. f_equal.
Qed.

End FullScan.

(** ** Decision and confidence *)

Section DecisionShape.
Context {num : Type} `{JsNumber num}.





End DecisionShape.

Section ShortHistory.
Context {num : Type} `{JsNumber num}.

Lemma rsi_rule_tag (v : num) l :
  exists t, rsi_rule (Some v) l = l ++ [t] /\
            In t ["OVERSOLD"; "OVERBOUGHT"; "NEUTRAL_RSI"]%string.
Proof.
  unfold rsi_rule.
  destruct (nltb v (of_nat 30)); [|destruct (nltb (of_nat 70) v)];
    eexists; (split; [reflexivity|]); simpl; auto.
Qed.

Lemma bands_rule_tag (b : Bands num) (p : num) l :
  exists t, bands_rule (Some b) p l = l ++ [t] /\
            In t ["RESISTANCE_TOUCH"; "SUPPORT_TOUCH"; "WITHIN_BANDS"]%string.
Proof.
  unfold bands_rule.
  destruct (nltb (upper b) p); [|destruct (nltb p (lower b))];
    eexists; (split; [reflexivity|]); simpl; auto.
Qed.

(** X9.  With 20 to 25 points the 50-point average, the 26-point EMA and
    the MACD are all [null]: the analysis carries exactly two tags, one
    from the RSI and one from the Bollinger bands, and its decision is
    HOLD with confidence LOW whatever the prices. *)
Theorem short_history_holds :
  forall (fetch : string -> string -> Rand num (option (list num)))
         (symbol timeframe : string) (r : Rng num) (prices : list num),
    fst (fetch symbol timeframe r) = Some prices ->
    20 <= length prices < 26 ->
    let a := fst (analyzeSymbolWith fetch symbol timeframe r) in
    decision a = HOLD /\ confidence a = Some LOW /\
    exists rsi_tag band_tag,
      tags a = [rsi_tag; band_tag] /\
      In rsi_tag ["OVERSOLD"; "OVERBOUGHT"; "NEUTRAL_RSI"]%string /\
      In band_tag ["RESISTANCE_TOUCH"; "SUPPORT_TOUCH"; "WITHIN_BANDS"]%string.
Proof.
  intros fetch symbol timeframe r prices Hfetch Hlen.
  unfold analyzeSymbolWith, bind, ret.
  destruct (fetch symbol timeframe r) as [data r']. cbn [fst] in Hfetch. subst data.
  cbv beta iota zeta delta [fst].
  destruct (analyzeFetched_enough symbol timeframe prices ltac:(lia)) as (Hd & Hc & Ht).
  rewrite Hd, Hc, Ht.
  assert (Htags : exists rsi_tag band_tag,
             signalsOf prices = [rsi_tag; band_tag] /\
             In rsi_tag ["OVERSOLD"; "OVERBOUGHT"; "NEUTRAL_RSI"]%string /\
             In band_tag ["RESISTANCE_TOUCH"; "SUPPORT_TOUCH"; "WITHIN_BANDS"]%string).
  { unfold signalsOf.
    assert (E50 : calculateMA prices 50 = None).
    { unfold calculateMA. destruct (Nat.ltb_spec (length prices) 50); [reflexivity | lia]. }
    assert (Emacd : calculateMACD prices 12 26 9 = None).
    { unfold calculateMACD. destruct (Nat.ltb_spec (length prices) 26); [reflexivity | lia]. }
    assert (Ersi : exists v, calculateRSI prices 14 = Some v).
    { unfold calculateRSI. destruct (Nat.ltb_spec (length prices) (14 + 1)); [lia|].
      destruct (for_loop 1 (14 + 1) (rsi_step prices) (of_nat 0, of_nat 0)) as [g l].
      destruct (neqb _ _); eauto. }
    assert (Ebb : exists b, calculateBollingerBands prices 20 (of_nat 2) = Some b).
    { unfold calculateBollingerBands.
      destruct (Nat.ltb_spec (length prices) 20); [lia | eauto]. }
    destruct Ersi as [v ->]. destruct Ebb as [b ->]. rewrite E50, Emacd.
    unfold trend_rule, macd_rule. cbn [truthy_opt]. rewrite andb_false_r.
    destruct (rsi_rule_tag v []) as (t1 & -> & Ht1). cbn [app].
    destruct (bands_rule_tag b (get prices (length prices - 1)) [t1]) as (t2 & -> & Ht2).
    cbn [app]. exists t1, t2. auto. }
  destruct Htags as (t1 & t2 & -> & Ht1 & Ht2).
  assert (Hcounts : bullishCount [t1; t2] <= 1 /\ bearishCount [t1; t2] <= 1).
  { cbn [In] in Ht1, Ht2.
    destruct Ht1 as [<-|[<-|[<-|[]]]], Ht2 as [<-|[<-|[<-|[]]]]; vm_compute; lia. }
  destruct Hcounts as [Hb Hs].
  unfold decide.
  destruct (Nat.ltb_spec (bearishCount [t1; t2] + 1) (bullishCount [t1; t2])); [lia|].
  destruct (Nat.ltb_spec (bullishCount [t1; t2] + 1) (bearishCount [t1; t2])); [lia|].
  cbn [fst snd]. split; [reflexivity|]. split; [reflexivity|].
  exists t1, t2. auto.
Qed.

End ShortHistory.

(** ** Averages stay within the prices (exact arithmetic) *)





(** ** Fibonacci levels (exact arithmetic) *)



(** ** When the RSI is 100 (exact arithmetic) *)




(** ** A flat market (exact arithmetic) *)





(** ** The mock prices (exact arithmetic) *)







(** ** NaN prices (binary64) *)

Lemma SFcompare_refl_nan (f : SpecFloat.spec_float) :
  SpecFloat.SFeqb f f = false -> f = SpecFloat.S754_nan.
Proof.
  unfold SpecFloat.SFeqb.
  destruct f as [s|s| |s m e]; cbn [SpecFloat.SFcompare]; try reflexivity.
  - discriminate.
  - destruct s; discriminate.
  - change (PosDef.Pos.compare_cont Eq m m) with (Pos.compare m m).
    rewrite Z.compare_refl, Pos.compare_refl. destruct s; discriminate.
Qed.

Lemma leb_nan_left (x y : float) :
  PrimFloat.is_nan x = true -> PrimFloat.leb x y = false.
Proof.
  unfold PrimFloat.is_nan. rewrite negb_true_iff, FloatAxioms.eqb_spec.
  intros Hnan. apply SFcompare_refl_nan in Hnan.
  rewrite FloatAxioms.leb_spec, Hnan. reflexivity.
Qed.

(** X16.  On binary64 a NaN price that has a full window on both sides is
    always reported as a high swing, whatever its neighbours: every
    comparison with NaN is false, so nothing clears [isHigh]. *)
Theorem findSwings_nan_is_high :
  forall (prices : list float) (windowSize i : nat),
    windowSize <= i ->
    i + windowSize < length prices ->
    PrimFloat.is_nan (get prices i) = true ->
    In {| swing_type := high; swing_index := i; swing_price := get prices i |}
       (findSwings prices windowSize).
Proof.
  intros prices windowSize i Hlo Hhi Hnan.
  apply (findSwings_complete prices windowSize i); [lia|].
  apply (window_flags_complete prices windowSize i).
  intros j _ _. cbv [nleb binary64]. now apply leb_nan_left.
Qed.

(** ** The MACD tag and the MACD line (exact arithmetic) *)




(** ** The aggregate only counts votes *)

Lemma countOf_votes (d : Decision) (l : list Decision) :
  d <> INSUFFICIENT_DATA -> countOf d (filter is_vote l) = countOf d l.
Proof.
  intros Hd. unfold countOf. induction l as [|x l IH]; [reflexivity|].
  cbn [filter]. destruct x; cbn [is_vote Decision_eqb negb filter length];
    destruct d; cbn [Decision_eqb length]; try contradiction; congruence.
Qed.

Lemma countOf_Permutation (d : Decision) (l1 l2 : list Decision) :
  Permutation l1 l2 -> countOf d l1 = countOf d l2.
Proof.
  intros Hperm. unfold countOf.
  apply Permutation_length. induction Hperm.
  - constructor.
  - cbn [filter]. destruct (Decision_eqb x d); [now constructor | assumption].
  - cbn [filter]. destruct (Decision_eqb x d), (Decision_eqb y d);
      try apply perm_swap; repeat constructor; apply Permutation_refl.
  - eapply Permutation_trans; eassumption.
Qed.

(** X18.  The aggregated decision depends neither on the order of the
    timeframes nor on the analyses that lack data: two lists of decisions
    with the same votes, in any order, aggregate alike. *)
Theorem aggregatedDecision_votes_only :
  forall l1 l2 : list Decision,
    Permutation (filter is_vote l1) (filter is_vote l2) ->
    aggregatedDecision l1 = aggregatedDecision l2.
Proof.
  intros l1 l2 Hperm. unfold aggregatedDecision.
  assert (Hcount : forall d, d <> INSUFFICIENT_DATA -> countOf d l1 = countOf d l2).
  { intros d Hd.
    rewrite <- (countOf_votes d l1 Hd), <- (countOf_votes d l2 Hd).
    now apply countOf_Permutation. }
  rewrite (Hcount BUY), (Hcount SELL), (Hcount HOLD) by discriminate.
  reflexivity.
Qed.

(** ** The further properties at concrete inputs *)

Lemma calculateMA_last_window_witness :
  calculateMA (series [9; 1; 2; 3] : list float) 3
  = calculateMA (series [7; 7; 1; 2; 3] : list float) 3.
Proof.
  apply (calculateMA_last_window (series [9; 1; 2; 3] : list float)
           (series [7; 7; 1; 2; 3]) 3).
  - lia.
  - vm_compute. lia.
  - vm_compute. lia.
  - vm_compute. reflexivity.
Defined.

Lemma identifyOrderBlocks_blocks_witness :
  nltb (of_nat 1 : float) (of_nat 2) = true.
Proof.
  apply (identifyOrderBlocks_blocks rising_highs
           {| block_type := bullish; block_high := of_nat 1; block_low := of_nat 2;
              confirmed := false |}).
  vm_compute. left. reflexivity.
Defined.

Lemma short_history_holds_witness :
  decision (fst (analyzeSymbolWith (fixedSource (series (seq 1 20) : list float))
                   "BTC" "1d" rng_half)) = HOLD.
Proof.
  apply (short_history_holds (fixedSource (series (seq 1 20) : list float))
           "BTC" "1d" rng_half (series (seq 1 20))).
  - reflexivity.
  - vm_compute. lia.
Defined.






Lemma findSwings_nan_is_high_witness :
  In {| swing_type := high; swing_index := 1; swing_price := PrimFloat.nan |}
     (findSwings [of_nat 1; PrimFloat.nan; of_nat 1] 1).
Proof.
  apply (findSwings_nan_is_high [of_nat 1; PrimFloat.nan; of_nat 1] 1 1).
  - lia.
  - vm_compute. lia.
  - vm_compute. reflexivity.
Defined.


Lemma aggregatedDecision_votes_only_witness :
  aggregatedDecision [BUY; INSUFFICIENT_DATA; HOLD; BUY] = aggregatedDecision [BUY; BUY; HOLD].
Proof.
  apply (aggregatedDecision_votes_only
           [BUY; INSUFFICIENT_DATA; HOLD; BUY] [BUY; BUY; HOLD]).
  cbn [filter is_vote Decision_eqb negb].
  apply perm_skip. apply perm_swap.
Defined.
